(** * OmniXAI bias analyzer: a shallow embedding of
    [omnixai/explainers/tabular/agnostic/bias.py]

    The module computes two group-fairness metrics (DPL and DI) of a model's
    predictions over two groups of rows of a tabular data set.  The embedding
    follows the Python source statement by statement:

    - Python exceptions are an [outcome] error monad;
    - Python floats are the kernel's binary64 numbers ([PrimFloat]), so every
      metric can be evaluated on a concrete input;
    - a [dict] is an insertion-ordered association list, as in CPython;
    - values of the duck-typed arguments (features, predictions, labels) are
      type parameters with the operations the code applies to them, given by
      the classes [PyKey], [PyStr] and [PyEq];
    - [assert] statements are executed (the interpreter does not run with
      [-O]);
    - the behaviour of numpy and pandas that the code relies on is written
      out at the definition that models it; what the constructor asks of
      numpy and of Python sets about the list of targets (array
      construction, the cast to [int], the order of a set) is an interface,
      [Runtime], with the laws the properties use and a reference
      implementation to run examples. *)

From Stdlib Require Import String Ascii List ZArith Lia Bool Permutation.
From Stdlib Require Import Floats Uint63.
From Stdlib Require Import Sorted.
Import ListNotations.
Open Scope string_scope.
Open Scope list_scope.

Set Implicit Arguments.

(* ================================================================= *)
(** ** Exceptions and outcomes *)

(** The exceptions the module can raise.  [AssertionError] carries the text
    of the failed [assert]. *)
Inductive exception : Type :=
| AssertionError (msg : string)
| ValueError
| ZeroDivisionError
| IndexError
| KeyError
| AttributeError
| OverflowError.

Inductive outcome (A : Type) : Type :=
| Ok (a : A)
| Raise (e : exception).

Arguments Ok {A} a.
Arguments Raise {A} e.

Definition bind {A B : Type} (c : outcome A) (k : A -> outcome B) : outcome B :=
  match c with
  | Ok a => k a
  | Raise e => Raise e
  end.

Notation "x <- c1 ;; c2" := (bind c1 (fun x => c2))
  (at level 61, c1 at next level, right associativity).
Notation "' pat <- c1 ;; c2" := (bind c1 (fun x => match x with pat => c2 end))
  (at level 61, pat pattern, c1 at next level, right associativity).

(** [assert cond, msg] *)
Definition py_assert (cond : bool) (msg : string) : outcome unit :=
  if cond then Ok tt else Raise (AssertionError msg).

(** A [for] loop whose body may raise: the state is threaded through the
    iterations, in order, and the first exception ends the loop. *)
Fixpoint for_each {A S : Type} (xs : list A) (body : S -> A -> outcome S)
  (s : S) : outcome S :=
  match xs with
  | [] => Ok s
  | x :: xs' => s' <- body s x ;; for_each xs' body s'
  end.

(* ================================================================= *)
(** ** Duck-typed values *)

(** Values used as dictionary keys: hashable, with an [==] that is
    structural equality (strings, integers, booleans).  A float NaN, which is
    not equal to itself, is not such a value. *)
Class PyKey (K : Type) := key_eq_dec : forall x y : K, {x = y} + {x <> y}.

(** [str(x)], as used by the f-strings of the assertion messages. *)
Class PyStr (K : Type) := py_str : K -> string.

(** [p == label] between a prediction and a label. *)
Class PyEq (P L : Type) := py_eq : P -> L -> bool.

#[export] Instance PyKey_string : PyKey string := string_dec.
#[export] Instance PyKey_Z : PyKey Z := Z.eq_dec.
#[export] Instance PyKey_nat : PyKey nat := Nat.eq_dec.
#[export] Instance PyStr_string : PyStr string := fun s => s.
#[export] Instance PyEq_Z : PyEq Z Z := Z.eqb.
#[export] Instance PyEq_nat : PyEq nat nat := Nat.eqb.
#[export] Instance PyEq_string : PyEq string string := String.eqb.

(* ================================================================= *)
(** ** Dictionaries *)

(** A Python [dict]: keys are unique and keep their insertion order. *)
Definition dict (K V : Type) : Type := list (K * V).

Section Dict.
Context {K V : Type} `{PyKey K}.

(** [d.get(k)] *)
Fixpoint dict_get (k : K) (d : dict K V) : option V :=
  match d with
  | [] => None
  | (k', v) :: d' => if key_eq_dec k k' then Some v else dict_get k d'
  end.

(** [k in d] *)
Definition dict_contains (k : K) (d : dict K V) : bool :=
  match dict_get k d with
  | Some _ => true
  | None => false
  end.

(** [d[k] = v]: an existing key keeps its place, a new key goes last. *)
Fixpoint dict_set (k : K) (v : V) (d : dict K V) : dict K V :=
  match d with
  | [] => [(k, v)]
  | (k', v') :: d' =>
      if key_eq_dec k k' then (k', v) :: d' else (k', v') :: dict_set k v d'
  end.

(** [d.items()] *)
Definition dict_items (d : dict K V) : list (K * V) := d.

End Dict.

(** [d[k]] on a [defaultdict(list)]: a missing key is first bound to the
    empty list.  The result is the list and the dictionary after the
    access. *)
Definition defaultdict_getitem {K A : Type} `{PyKey K} (k : K)
  (d : dict K (list A)) : list A * dict K (list A) :=
  match dict_get k d with
  | Some l => (l, d)
  | None => ([], dict_set k [] d)
  end.

(** [d[k].append(x)] on a [defaultdict(list)]. *)
Definition defaultdict_append {K A : Type} `{PyKey K} (k : K) (x : A)
  (d : dict K (list A)) : dict K (list A) :=
  let '(l, d') := defaultdict_getitem k d in
  dict_set k (l ++ [x]) d'.

(* ================================================================= *)
(** ** Numbers *)

(** [float(n)] for the length of a sequence.  A length is at most
    [sys.maxsize = 2^63 - 1], so it is a 63-bit machine integer. *)
Definition float_of_len (n : nat) : float :=
  PrimFloat.of_uint63 (Uint63.of_Z (Z.of_nat n)).

(** [float(z)] for a Python integer: the binary64 number nearest to it,
    ties to even. *)
Definition float_of_Z (z : Z) : float :=
  SF2Prim (binary_normalize prec emax z 0 false).

(** [a / b] on two lengths (Python integers): true division.  It raises
    [ZeroDivisionError] on a zero divisor; otherwise the quotient is the
    binary64 quotient of the two converted integers (exactly what CPython
    computes when both are below [2^53]). *)
Definition int_truediv (a b : nat) : outcome float :=
  if Nat.eqb b 0 then Raise ZeroDivisionError
  else Ok (float_of_len a / float_of_len b)%float.

(** [x / y] on two Python floats. *)
Definition float_truediv (x y : float) : outcome float :=
  if (y =? 0)%float then Raise ZeroDivisionError else Ok (x / y)%float.

(** The literal [1e-8] of [_di]: the binary64 number nearest to 10^-8. *)
Definition eps : float := 0x1.5798ee2308c3ap-27%float.

(** [arr[idx]] for a numpy array and a list of integer positions. *)
Fixpoint take {A : Type} (arr : list A) (idx : list nat) : outcome (list A) :=
  match idx with
  | [] => Ok []
  | i :: idx' =>
      match nth_error arr i with
      | Some x => rest <- take arr idx' ;; Ok (x :: rest)
      | None => Raise IndexError
      end
  end.

(* ================================================================= *)
(** ** The metric functions (static methods of [BiasAnalyzer]) *)

Section Metrics.
Context {T P L : Type} `{PyEq P L} `{PyKey L}.

(** [len([p for p in pred if p == label])] *)
Definition count_label (pred : list P) (label : L) : nat :=
  length (filter (fun p => py_eq p label) pred).

(** Difference in proportions in predicted labels. *)
Definition _dpl (targ_a targ_b : list T) (pred_a pred_b : list P)
  (labels : list L) : outcome (dict L float) :=
  for_each labels
    (fun metrics label =>
       let na := count_label pred_a label in
       let nb := count_label pred_b label in
       ra <- int_truediv na (length pred_a) ;;
       rb <- int_truediv nb (length pred_b) ;;
       Ok (dict_set label (ra - rb)%float metrics))
    [].

(** Disparate Impact. *)
Definition _di (targ_a targ_b : list T) (pred_a pred_b : list P)
  (labels : list L) : outcome (dict L float) :=
  for_each labels
    (fun metrics label =>
       qa <- int_truediv (count_label pred_a label) (length pred_a) ;;
       qb <- int_truediv (count_label pred_b label) (length pred_b) ;;
       r <- float_truediv qb (qa + eps)%float ;;
       Ok (dict_set label r metrics))
    [].

(** Difference in conditional outcomes: the body is [pass], the result is
    [None]. *)
Definition _dco (targ_a targ_b : list T) (pred_a pred_b : list P)
  (labels : list L) : outcome (option (dict L float)) :=
  Ok None.

End Metrics.

(* ================================================================= *)
(** ** numpy arrays *)

(** A cell of a data frame or an element of a numpy array of targets or
    predictions. *)
Inductive value : Type :=
| VStr (s : string)
| VInt (z : Z)
| VFloat (f : float).

(** The array a prediction function returns for a batch: [items] has one
    entry per row of the batch, each entry holding the [shape1] numbers of
    that row in row-major order (the per-class scores of a classifier, the
    single estimate of a regressor). *)
Record ndarray : Type := { shape1 : nat; items : list (list float) }.

(** [np.concatenate(arrays, axis=0)]: no array at all, or arrays that
    disagree on their other dimension, are a [ValueError]. *)
Definition np_concatenate (arrays : list ndarray) : outcome ndarray :=
  match arrays with
  | [] => Raise ValueError
  | a :: rest =>
      if forallb (fun b => Nat.eqb (shape1 b) (shape1 a)) rest
      then Ok {| shape1 := shape1 a; items := concat (map items arrays) |}
      else Raise ValueError
  end.

(** [z.flatten()] *)
Definition flatten (z : ndarray) : list float := concat (items z).

(** The scan numpy's [argmax] makes over one row: [mp] is the largest score
    so far and [max_ind] its position; a later score replaces it only when
    it is not [<= mp], and a NaN, once met, ends the scan. *)
Fixpoint argmax_loop (mp : float) (max_ind i : nat) (ip : list float) : nat :=
  match ip with
  | [] => max_ind
  | x :: ip' =>
      if PrimFloat.is_nan mp then max_ind
      else if negb (x <=? mp)%float then argmax_loop x i (S i) ip'
      else argmax_loop mp max_ind (S i) ip'
  end.

Definition argmax (row : list float) : nat :=
  match row with
  | [] => 0
  | x :: ip => argmax_loop x 0 1 ip
  end.

(** [np.argmax(z, axis=1)]: a reduction over an axis of length zero is a
    [ValueError]. *)
Definition np_argmax_axis1 (z : ndarray) : outcome (list nat) :=
  if Nat.eqb (shape1 z) 0 then Raise ValueError
  else Ok (map argmax (items z)).

(** [range(0, stop, step)] *)
Definition py_range (stop : nat) (step : Z) : outcome (list nat) :=
  if (step =? 0)%Z then Raise ValueError
  else if (step <? 0)%Z then Ok []
  else
    let s := Z.to_nat step in
    Ok (map (fun k => k * s) (seq 0 ((stop + s - 1) / s))).

(* ================================================================= *)
(** ** numpy and the interpreter under the constructor *)

(** The range of numpy's [int64]. *)
Definition int64 (z : Z) : Prop := (- 2 ^ 63 <= z < 2 ^ 63)%Z.

(** What [__init__] asks of numpy and of the interpreter about the list of
    targets.  The three operations are library code, not code of the
    module: the constructor is written over any implementation of them, and
    [runtime_laws] states the part of their behaviour that the properties of
    the constructor rely on. *)
Class Runtime : Type := {
  (** [np.array(xs)] for a list of Python scalars: the elements of the
      array, after numpy has given them one common type *)
  np_array : list value -> list value;
  (** [arr.astype(int)]: the elements as 64-bit integers, or the exception
      of the cast *)
  astype_int : list value -> outcome (list Z);
  (** [list(set(zs))]: the members of the set, in the order in which the
      interpreter iterates over it *)
  py_list_set : list Z -> list Z
}.

(** numpy and Python sets on numeric targets: a list of integers that fit
    [int64] becomes the [int64] array of these integers and a list of
    floats the [float64] array of these floats; casting an [int64] array to
    [int] changes nothing; a set lists each of its members once, in an
    order that Python leaves open. *)
Record runtime_laws (rt : Runtime) : Prop := {
  np_array_ints :
    forall zs, Forall int64 zs -> np_array (map VInt zs) = map VInt zs;
  np_array_floats :
    forall fs, np_array (map VFloat fs) = map VFloat fs;
  astype_int_ints :
    forall zs, Forall int64 zs -> astype_int (map VInt zs) = Ok zs;
  py_list_set_members :
    forall zs,
      NoDup (py_list_set zs) /\ (forall z, In z (py_list_set zs) <-> In z zs)
}.

(** *** A reference runtime

    One implementation of the three operations, used to run the constructor
    on example inputs: numpy 1.x on x86-64 for lists of integers, floats
    and ASCII text, and a set that lists its members in increasing order
    (as CPython does for small sets of small non-negative integers; in
    general the order depends on the hashes and on the history of the set).
    A float inside an array of text keeps its constructor here: numpy holds
    its decimal text, which no integer cast accepts. *)

Definition fits_int64 (z : Z) : bool :=
  ((- 2 ^ 63 <=? z) && (z <? 2 ^ 63))%Z.

(** The element type numpy settles on for an array. *)
Inductive array_kind : Type :=
| of_int64 | of_uint64 | of_float64 | of_text | of_objects.

(** The type numpy finds for one Python scalar: an integer is an [int64]
    if it fits, else a [uint64] if it fits, else a Python object. *)
Definition element_kind (v : value) : array_kind :=
  match v with
  | VStr _ => of_text
  | VFloat _ => of_float64
  | VInt z =>
      if fits_int64 z then of_int64
      else if ((0 <=? z) && (z <? 2 ^ 64))%Z then of_uint64
      else of_objects
  end.

(** [np.promote_types]: [int64] and [uint64] meet in [float64]. *)
Definition promote (a b : array_kind) : array_kind :=
  match a, b with
  | of_objects, _ | _, of_objects => of_objects
  | of_text, _ | _, of_text => of_text
  | of_float64, _ | _, of_float64 => of_float64
  | of_int64, of_int64 => of_int64
  | of_uint64, of_uint64 => of_uint64
  | _, _ => of_float64
  end.

(** The element type of [np.array(xs)]; the empty array is a [float64]
    array. *)
Definition kind_of (xs : list value) : array_kind :=
  match xs with
  | [] => of_float64
  | x :: xs' =>
      fold_left (fun k y => promote k (element_kind y)) xs' (element_kind x)
  end.

Definition digit_text (d : nat) : string :=
  String (ascii_of_nat (48 + d)) EmptyString.

Fixpoint decimal_text (fuel : nat) (n : N) : string :=
  match fuel with
  | 0 => EmptyString
  | S fuel' =>
      if (n <? 10)%N then digit_text (N.to_nat n)
      else (decimal_text fuel' (n / 10)%N
            ++ digit_text (N.to_nat (n mod 10)%N))%string
  end.

(** [str(z)] *)
Definition text_of_Z (z : Z) : string :=
  let digits := decimal_text (S (N.to_nat (N.log2 (Z.abs_N z)))) (Z.abs_N z) in
  if (z <? 0)%Z then ("-" ++ digits)%string else digits.

Definition reference_np_array (xs : list value) : list value :=
  match kind_of xs with
  | of_float64 =>
      map (fun x => match x with VInt z => VFloat (float_of_Z z) | _ => x end)
          xs
  | of_text =>
      map (fun x => match x with VInt z => VStr (text_of_Z z) | _ => x end) xs
  | _ => xs
  end.

(** A finite float without its fractional part. *)
Definition truncate (f : float) : option Z :=
  match Prim2SF f with
  | S754_zero _ => Some 0%Z
  | S754_finite s m e =>
      let a := if (0 <=? e)%Z then (Zpos m * 2 ^ e)%Z
               else (Zpos m / 2 ^ (- e))%Z in
      Some (if s then (- a)%Z else a)
  | _ => None
  end.

(** The cast of a [float64] to [int64]: the float is truncated towards
    zero; NaN, the infinities and values beyond 64 bits give the smallest
    [int64], as on x86-64. *)
Definition float_to_int64 (f : float) : Z :=
  match truncate f with
  | Some z => if fits_int64 z then z else (- 2 ^ 63)%Z
  | None => (- 2 ^ 63)%Z
  end.

Definition is_space (c : ascii) : bool :=
  let n := nat_of_ascii c in
  (Nat.leb 9 n && Nat.leb n 13) || (Nat.leb 28 n && Nat.leb n 32).

Fixpoint all_space (s : string) : bool :=
  match s with
  | EmptyString => true
  | String c s' => is_space c && all_space s'
  end.

(** The digits of [int(s)]: decimal digits, single underscores between
    them, white space after them. *)
Fixpoint digits_value (s : string) (acc : Z) (after_digit : bool) : option Z :=
  match s with
  | EmptyString => if after_digit then Some acc else None
  | String c s' =>
      let n := nat_of_ascii c in
      if Nat.leb 48 n && Nat.leb n 57
      then digits_value s' (10 * acc + Z.of_nat (n - 48))%Z true
      else if Nat.eqb n 95 && after_digit then
        match s' with
        | EmptyString => None
        | String _ _ => digits_value s' acc false
        end
      else if is_space c && after_digit && all_space s' then Some acc
      else None
  end.

Fixpoint skip_space (s : string) : string :=
  match s with
  | EmptyString => EmptyString
  | String c s' => if is_space c then skip_space s' else s
  end.

(** [int(s)] for ASCII text, [None] where Python raises its
    [ValueError]. *)
Definition int_of_text (s : string) : option Z :=
  match skip_space s with
  | String "+"%char s' => digits_value s' 0 false
  | String "-"%char s' => option_map Z.opp (digits_value s' 0 false)
  | s' => digits_value s' 0 false
  end.

Definition checked_int64 (z : Z) : outcome Z :=
  if fits_int64 z then Ok z else Raise OverflowError.

(** The cast of one element of an array of kind [k] to [int64]: a [uint64]
    wraps around, a [float64] is truncated, text and Python objects go
    through [int(x)], which refuses what is not an integer and what does
    not fit. *)
Definition cast_int64 (k : array_kind) (x : value) : outcome Z :=
  match x with
  | VInt z =>
      match k with
      | of_uint64 => Ok (z - 2 ^ 64)%Z
      | of_float64 => Ok (float_to_int64 (float_of_Z z))
      | _ => checked_int64 z
      end
  | VFloat f =>
      match k with
      | of_text => Raise ValueError
      | of_objects =>
          match truncate f with
          | Some z => checked_int64 z
          | None =>
              if PrimFloat.is_nan f then Raise ValueError
              else Raise OverflowError
          end
      | _ => Ok (float_to_int64 f)
      end
  | VStr s =>
      match int_of_text s with
      | Some z => checked_int64 z
      | None => Raise ValueError
      end
  end.

Definition reference_astype_int (xs : list value) : outcome (list Z) :=
  for_each xs (fun acc x => z <- cast_int64 (kind_of xs) x ;; Ok (acc ++ [z]))
           [].

Fixpoint insert_sorted (z : Z) (l : list Z) : list Z :=
  match l with
  | [] => [z]
  | y :: l' =>
      if (z <? y)%Z then z :: l
      else if (z =? y)%Z then l
      else y :: insert_sorted z l'
  end.

Definition sorted_set (zs : list Z) : list Z := fold_right insert_sorted [] zs.

Definition reference_runtime : Runtime :=
  {| np_array := reference_np_array;
     astype_int := reference_astype_int;
     py_list_set := sorted_set |}.

(* ================================================================= *)
(** ** The tabular data container *)

(** Modelled from the spec: the [Tabular] class of [omnixai.data.tabular]
    is not part of the sources at hand.  Following section 6 of the
    specification it is an ordered sequence of rows over named columns that
    offers a membership test on columns, its row count, slicing by rows, and
    the extraction and the removal of a named target column. *)
Record Tabular (V : Type) : Type := {
  columns : list string;
  rows : list (list V);
  target_column : option string
}.

(** A pandas [DataFrame], column by column. *)
Definition DataFrame (V : Type) : Type := dict string (list V).

Section TabularOps.
Context {V : Type}.

(** Modelled from the spec: [X.shape[0]], the number of rows. *)
Definition shape0 (X : Tabular V) : nat := length (rows X).

(** Modelled from the spec: [X[i:j]], the rows from position [i] up to
    position [j], over the same columns. *)
Definition slice (X : Tabular V) (i j : nat) : Tabular V :=
  {| columns := columns X;
     rows := firstn (j - i) (skipn i (rows X));
     target_column := target_column X |}.

(** Modelled from the spec: the position of a column. *)
Fixpoint index_of (c : string) (cs : list string) : option nat :=
  match cs with
  | [] => None
  | c' :: cs' =>
      if String.eqb c c' then Some 0 else option_map S (index_of c cs')
  end.

(** Modelled from the spec: the cell of a row in a column. *)
Definition cell (j : nat) (row : list V) : list V :=
  match nth_error row j with
  | Some v => [v]
  | None => []
  end.

(** Modelled from the spec: the values of a column, row by row. *)
Definition column_values (X : Tabular V) (c : string) : list V :=
  match index_of c (columns X) with
  | Some j => flat_map (cell j) (rows X)
  | None => []
  end.

(** Modelled from the spec: [X.to_pd(copy=False)], the rows as a data
    frame. *)
Definition to_pd (X : Tabular V) : DataFrame V :=
  fold_left (fun df c => dict_set c (column_values X c) df) (columns X) [].

(** Modelled from the spec: [X.get_target_column()], the values of the
    target column. *)
Definition get_target_column (X : Tabular V) : list V :=
  match target_column X with
  | Some c => column_values X c
  | None => []
  end.

Fixpoint remove_nth {A : Type} (j : nat) (l : list A) : list A :=
  match l, j with
  | [], _ => []
  | _ :: l', 0 => l'
  | x :: l', S j' => x :: remove_nth j' l'
  end.

(** Modelled from the spec: [X.remove_target_column()], the features
    without the target column. *)
Definition remove_target_column (X : Tabular V) : Tabular V :=
  match target_column X with
  | Some c =>
      match index_of c (columns X) with
      | Some j =>
          {| columns := remove_nth j (columns X);
             rows := map (remove_nth j) (rows X);
             target_column := None |}
      | None =>
          {| columns := columns X; rows := rows X; target_column := None |}
      end
  | None => X
  end.

End TabularOps.

(** [df[c]] for the name held by [X.target_column]. *)
Definition df_getitem {V : Type} (df : DataFrame V) (c : option string)
  : outcome (list V) :=
  match c with
  | Some c =>
      match dict_get c df with
      | Some series => Ok series
      | None => Raise KeyError
      end
  | None => Raise KeyError
  end.

(** The truth value of [X.target_column]: [None] and the empty string are
    false. *)
Definition truthy (c : option string) : bool :=
  match c with
  | Some s => negb (String.eqb s "")
  | None => false
  end.

(** The numpy scalar types the constructor lists. *)
Inductive dtype : Type :=
| np_int | np_int32 | np_int64 | np_float | np_float32 | np_float64.

(** [series in types] for a pandas [Series] and a Python list of types.
    The list's membership test compares its first element with the series
    by [==]; pandas answers with an element-wise boolean [Series], and the
    truth value Python then asks of it is a [ValueError] ("The truth value
    of a Series is ambiguous"), whatever the series holds.  Only an empty
    list answers [False].  (From numpy 1.24 on the names [np.int] and
    [np.float] are gone and the list itself cannot be built.) *)
Definition series_in_types {V : Type} (series : list V) (types : list dtype)
  : outcome bool :=
  match types with
  | [] => Ok false
  | _ :: _ => Raise ValueError
  end.

(* ================================================================= *)
(** ** [BiasAnalyzer] *)

Record BiasAnalyzer (F T P L : Type) : Type := {
  mode : string;
  data : DataFrame F;
  predict_function : Tabular F -> ndarray;
  targs : list T;
  preds : list P;
  all_labels : list L
}.

(** [BiasAnalyzer._predict]: the method reads [self.mode] and
    [self.predict_function], which the constructor has set before the
    call. *)
Definition _predict {V : Type} (mode : string)
  (predict_function : Tabular V -> ndarray) (X : Tabular V) (batch_size : Z)
  : outcome (list value) :=
  let n := shape0 X in
  starts <- py_range n batch_size ;;
  let predictions :=
    map (fun i => predict_function (slice X i (i + Z.to_nat batch_size)))
        starts in
  z <- np_concatenate predictions ;;
  if String.eqb mode "regression" then Ok (map VFloat (flatten z))
  else
    idx <- np_argmax_axis1 z ;;
    Ok (map (fun i => VInt (Z.of_nat i)) idx).

(** [BiasAnalyzer.__init__].  [kwargs_batch_size] is the entry
    ["batch_size"] of [kwargs], if any. *)
Definition __init__ {rt : Runtime} (training_data : Tabular value)
  (predict_function : option (Tabular value -> ndarray)) (mode : string)
  (training_targets : option (list value)) (kwargs_batch_size : option Z)
  : outcome (BiasAnalyzer value value value value) :=
  _ <- py_assert
         (existsb (String.eqb mode) ["classification"; "regression"])
         "`BiasAnalyzer` only supports classification and regression models." ;;
  predict_function <-
    match predict_function with
    | Some f => Ok f
    | None => Raise (AssertionError "`predict_function` is not None.")
    end ;;
  '(training_targets, training_data) <-
    match training_targets with
    | None =>
        _ <- py_assert (truthy (target_column training_data))
               "`training_data` has no label/target column. Please set `training_targets`" ;;
        series <- df_getitem (to_pd training_data)
                             (target_column training_data) ;;
        is_number <-
          series_in_types series
            [np_int; np_int32; np_int64; np_float; np_float32; np_float64] ;;
        _ <- py_assert is_number
               "The targets/labels in `training_data` must be either int or float." ;;
        Ok (get_target_column training_data,
            remove_target_column training_data)
    | Some targets => Ok (targets, training_data)
    end ;;
  let data := to_pd training_data in
  let targs := np_array training_targets in
  preds <- _predict mode predict_function training_data
             (match kwargs_batch_size with Some b => b | None => 64%Z end) ;;
  all_labels <-
    (if String.eqb mode "classification"
     then ints <- astype_int targs ;;
          Ok (map VInt (py_list_set ints))
     else Ok targs) ;;
  Ok {| mode := mode; data := data; predict_function := predict_function;
        targs := targs; preds := preds; all_labels := all_labels |}.

(** The second argument of [explain]: a single feature value, or a list or
    tuple (of two lists of feature values, as the method then asserts). *)
Inductive groups_arg (F : Type) : Type :=
| SingleValue (v : F)
| ValueLists (gs : list (list F)).

Arguments SingleValue {F} v.
Arguments ValueLists {F} gs.

(** The third argument of [explain]: [None], one label, or a list, tuple or
    array of labels. *)
Inductive labels_arg (L : Type) : Type :=
| NoLabels
| OneLabel (l : L)
| LabelList (ls : list L).

Arguments NoLabels {L}.
Arguments OneLabel {L} l.
Arguments LabelList {L} ls.

(** What a call of [explain] leaves behind: the objects it printed and the
    value it returned ([None] for Python's [None]). *)
Record call_result (R : Type) : Type := {
  stdout : list R;
  returned : option R
}.

(** [s.lower()] *)
Definition lower_ascii (c : ascii) : ascii :=
  let n := nat_of_ascii c in
  if andb (Nat.leb 65 n) (Nat.leb n 90) then ascii_of_nat (n + 32) else c.

Fixpoint lower (s : string) : string :=
  match s with
  | EmptyString => EmptyString
  | String c s' => String (lower_ascii c) (lower s')
  end.

Section Explain.
Context {F T P L : Type} `{PyKey F} `{PyStr F} `{PyEq P L} `{PyKey L}.

(** The result mapping of [explain]: metric name to (label to score). *)
Definition result : Type := dict string (dict L float).

Definition metric : Type :=
  list T -> list T -> list P -> list P -> list L -> outcome (dict L float).

(** [getattr(BiasAnalyzer, name)] for the names [explain] asks for, the
    two metrics that return a mapping. *)
Definition getattr_BiasAnalyzer (name : string) : outcome metric :=
  if String.eqb name "_dpl" then Ok (_dpl : metric)
  else if String.eqb name "_di" then Ok (_di : metric)
  else Raise AttributeError.

(** [BiasAnalyzer._get_labels] *)
Definition _get_labels (self : BiasAnalyzer F T P L)
  (group_a group_b : list nat) (labels : labels_arg L)
  : outcome (list T * list T * list P * list P * list L) :=
  let labels :=
    match labels with
    | NoLabels => all_labels self
    | OneLabel l => [l]
    | LabelList ls => ls
    end in
  targ_a <- take (targs self) group_a ;;
  targ_b <- take (targs self) group_b ;;
  pred_a <- take (preds self) group_a ;;
  pred_b <- take (preds self) group_b ;;
  Ok (targ_a, targ_b, pred_a, pred_b, labels).

(** Lines 97-99 of [explain]: the positions of every value of the
    column. *)
Definition feat_value2idx (values : list F) : dict F (list nat) :=
  fold_left (fun d '(i, feat) => defaultdict_append feat i d)
            (combine (seq 0 (length values)) values) [].

(** [assert feat in feat_value2idx, f"Feature {feat} does not exist."] *)
Definition assert_known (d : dict F (list nat)) (feat : F) : outcome unit :=
  py_assert (dict_contains feat d)
            ("Feature " ++ py_str feat ++ " does not exist.")%string.

(** Lines 111-114: the rows of a list of feature values, in the order of the
    list. *)
Definition rows_of_values (d : dict F (list nat)) (feats : list F)
  : list nat * dict F (list nat) :=
  fold_left
    (fun '(group, d) feat =>
       let '(indices, d') := defaultdict_getitem feat d in
       (group ++ indices, d'))
    feats ([], d).

(** Lines 116-119: the rows of one feature value, and the rows of every
    other value of the column. *)
Definition one_vs_rest (d : dict F (list nat)) (v : F)
  : list nat * list nat :=
  let '(group_a, d) := defaultdict_getitem v d in
  let group_b :=
    fold_left
      (fun group '(feat, indices) =>
         if key_eq_dec feat v then group else group ++ indices)
      (dict_items d) [] in
  (group_a, group_b).

(** Lines 109-119 of [explain]. *)
Definition groups (d : dict F (list nat)) (feature_value_or_groups : groups_arg F)
  : list nat * list nat :=
  match feature_value_or_groups with
  | ValueLists gs =>
      let '(group_a, d) := rows_of_values d (nth 0 gs []) in
      let '(group_b, _) := rows_of_values d (nth 1 gs []) in
      (group_a, group_b)
  | SingleValue v => one_vs_rest d v
  end.

(** [BiasAnalyzer.explain] *)
Definition explain (self : BiasAnalyzer F T P L) (feature_column : string)
  (feature_value_or_groups : groups_arg F)
  (target_value_or_threshold : labels_arg L)
  : outcome (call_result result) :=
  _ <- py_assert (dict_contains feature_column (data self))
         ("Feature column " ++ feature_column ++ " does not exist.")%string ;;
  _ <- match feature_value_or_groups with
       | ValueLists gs =>
           py_assert (Nat.eqb (length gs) 2)
             "`feature_value_or_groups` is either a single value or a list/tuple of two lists indicating two feature groups, e.g., `feature_value_or_groups = 'X'` or `feature_value_or_groups = (['X', 'Y'], ['Z'])`."
       | SingleValue _ => Ok tt
       end ;;
  let values :=
    match dict_get feature_column (data self) with
    | Some values => values
    | None => []
    end in
  let d := feat_value2idx values in
  _ <- match feature_value_or_groups with
       | ValueLists gs =>
           _ <- for_each (nth 0 gs []) (fun _ feat => assert_known d feat) tt ;;
           for_each (nth 1 gs []) (fun _ feat => assert_known d feat) tt
       | SingleValue v => assert_known d v
       end ;;
  let '(group_a, group_b) := groups d feature_value_or_groups in
  '(targ_a, targ_b, pred_a, pred_b, labels) <-
    _get_labels self group_a group_b target_value_or_threshold ;;
  res <- for_each ["DPL"; "DI"]
           (fun res metric_name =>
              func <- getattr_BiasAnalyzer ("_" ++ lower metric_name)%string ;;
              m <- func targ_a targ_b pred_a pred_b labels ;;
              Ok (dict_set metric_name m res))
           [] ;;
  Ok {| stdout := [res]; returned := None |}.

End Explain.

(* ================================================================= *)
(** ** Notions used in the statements and proofs *)

(** The message of the assertion on a feature value: it names the value. *)
Definition UnknownFeatureValue {F : Type} `{PyStr F} (v : F) : exception :=
  AssertionError ("Feature " ++ py_str v ++ " does not exist.")%string.

(** Every feature value the call mentions occurs in the column (and the
    list form has its two lists). *)
Definition all_known {F : Type} (values : list F) (arg : groups_arg F) : Prop :=
  match arg with
  | SingleValue v => In v values
  | ValueLists gs =>
      length gs = 2
      /\ Forall (fun x => In x values) (nth 0 gs [])
      /\ Forall (fun x => In x values) (nth 1 gs [])
  end.

(** [count(pred == l) / |pred|] *)
Definition proportion {P L : Type} `{PyEq P L} (pred : list P) (l : L) : float :=
  (float_of_len (count_label pred l) / float_of_len (length pred))%float.

(** Follows the specification's words: [count(pred == l)], the number of
    predictions of a group that are the label [l]. *)
Fixpoint spec_count {P L : Type} `{PyEq P L} (pred : list P) (l : L) : nat :=
  match pred with
  | [] => 0
  | p :: pred' => (if py_eq p l then 1 else 0) + spec_count pred' l
  end.

(** Follows the specification's words: [count(pred == l) / |pred|], the
    quotient of the two numbers as binary64 numbers. *)
Definition spec_proportion {P L : Type} `{PyEq P L} (pred : list P) (l : L)
  : float :=
  (float_of_Z (Z.of_nat (spec_count pred l))
   / float_of_Z (Z.of_nat (length pred)))%float.

(** The predictions of the rows whose feature value passes [keep], in the
    order of the rows. *)
Fixpoint predictions_where {F P : Type} (keep : F -> bool) (values : list F)
  (preds : list P) : list P :=
  match values, preds with
  | v :: values', p :: preds' =>
      if keep v then p :: predictions_where keep values' preds'
      else predictions_where keep values' preds'
  | _, _ => []
  end.

(** [x == v] on feature values. *)
Definition is_value {F : Type} `{PyKey F} (v x : F) : bool :=
  if key_eq_dec x v then true else false.

(** The batches [_predict] hands to the prediction function. *)
Definition batches_of {V : Type} (X : Tabular V) (s : nat) : list (Tabular V) :=
  map (fun i => slice X i (i + s))
      (map (fun k => k * s) (seq 0 ((shape0 X + s - 1) / s))).



Definition key_lt (a b : Z * Z * Z) : Prop :=
  let '(a1, a2, a3) := a in
  let '(b1, b2, b3) := b in
  (a1 < b1 \/ (a1 = b1 /\ (a2 < b2 \/ (a2 = b2 /\ a3 < b3))))%Z.

(** The sign bit of a number is clear (a NaN has none). *)
Definition sign_clear (x : spec_float) : bool :=
  match x with
  | S754_zero s | S754_infinity s | S754_finite s _ _ => negb s
  | S754_nan => true
  end.

(* ================================================================= *)
(** ** Example inputs *)

(** The scenario of section 8 of the specification: four rows with the
    feature values X, X, Y, Y and the targets 0, 1, 0, 1, and a classifier
    that predicts the target of every row (it reads it from the second
    column). *)
Definition scenario_data : Tabular string :=
  {| columns := ["feat"; "y"];
     rows := [["X"; "0"]; ["X"; "1"]; ["Y"; "0"]; ["Y"; "1"]];
     target_column := None |}.

Definition scenario_predict (batch : Tabular string) : ndarray :=
  {| shape1 := 2;
     items := map (fun row =>
                     match nth_error row 1 with
                     | Some "1" => [0; 1]
                     | _ => [1; 0]
                     end%float)
                  (rows batch) |}.

Definition scenario : BiasAnalyzer string Z Z Z :=
  {| mode := "classification";
     data := to_pd scenario_data;
     predict_function := scenario_predict;
     targs := [0; 1; 0; 1]%Z;
     preds := [0; 1; 0; 1]%Z;
     all_labels := [0; 1]%Z |}.

(** A data set that carries its integer targets in the column "label". *)
Definition labelled_data : Tabular value :=
  {| columns := ["feat"; "label"];
     rows := [[VStr "X"; VInt 0]; [VStr "X"; VInt 1];
              [VStr "Y"; VInt 0]; [VStr "Y"; VInt 1]];
     target_column := Some "label" |}.

Definition unlabelled_data : Tabular value :=
  {| columns := ["feat"];
     rows := [[VStr "X"]; [VStr "Y"]];
     target_column := None |}.

Definition constant_predict (batch : Tabular value) : ndarray :=
  {| shape1 := 2; items := map (fun _ => [1; 0]%float) (rows batch) |}.

(** A deterministic prediction function whose scores depend on the size of
    the batch it is given. *)
Definition batch_dependent_predict (batch : Tabular string) : ndarray :=
  {| shape1 := 2;
     items := map (fun _ => if Nat.eqb (length (rows batch)) 1
                            then [1; 0]%float else [0; 1]%float)
                  (rows batch) |}.

(* ================================================================= *)
(** ** Notions used in the further properties *)

(** The positions, counted from [s], of the rows of a column that hold the
    value [v], in increasing order. *)
Fixpoint positions_from {F : Type} `{PyKey F} (s : nat) (v : F)
  (values : list F) : list nat :=
  match values with
  | [] => []
  | w :: values' =>
      if key_eq_dec w v then s :: positions_from (S s) v values'
      else positions_from (S s) v values'
  end.

Definition positions {F : Type} `{PyKey F} (v : F) (values : list F)
  : list nat :=
  positions_from 0 v values.

(** The distinct values of a list, each at the place of its first
    occurrence, added to the values [seen] so far. *)
Definition first_seen_from {F : Type} `{PyKey F} (seen values : list F)
  : list F :=
  fold_left (fun acc v => if in_dec key_eq_dec v acc then acc else acc ++ [v])
            values seen.

Definition first_seen {F : Type} `{PyKey F} (values : list F) : list F :=
  first_seen_from [] values.

(** [d[k]] read off a [defaultdict(list)] without changing it. *)
Definition lookup_default {K A : Type} `{PyKey K} (d : dict K (list A))
  (k : K) : list A :=
  match dict_get k d with
  | Some l => l
  | None => []
  end.

(** The elements of an array at a list of positions. *)
Definition selects {A : Type} (arr : list A) (idx : list nat) (l : list A)
  : Prop :=
  Forall2 (fun i x => nth_error arr i = Some x) idx l.

(** The labels [_get_labels] settles on. *)
Definition resolved_labels {F T P L : Type} (self : BiasAnalyzer F T P L)
  (arg : labels_arg L) : list L :=
  match arg with
  | NoLabels => all_labels self
  | OneLabel l => [l]
  | LabelList ls => ls
  end.

(** The class of a proportion: plus zero or a positive finite number. *)
Definition proportion_like (x : float) : Prop :=
  Prim2SF x = S754_zero false
  \/ exists m e, Prim2SF x = S754_finite false m e.

(** ** Further example inputs *)

(** The analyzer of the scenario with only two targets for its four rows. *)
Definition short_scenario : BiasAnalyzer string Z Z Z :=
  {| mode := "classification";
     data := to_pd scenario_data;
     predict_function := scenario_predict;
     targs := [0; 1]%Z;
     preds := [0; 1; 0; 1]%Z;
     all_labels := [0; 1]%Z |}.

(** The analyzer of the scenario with a classifier that is not even-handed:
    it predicts label 1 for both rows of X and for one row of Y. *)
Definition skewed_scenario : BiasAnalyzer string Z Z Z :=
  {| mode := "classification";
     data := to_pd scenario_data;
     predict_function := scenario_predict;
     targs := [0; 1; 0; 1]%Z;
     preds := [1; 1; 0; 1]%Z;
     all_labels := [0; 1]%Z |}.

(** An analyzer whose feature column holds one value only. *)
Definition uniform_scenario : BiasAnalyzer string Z Z Z :=
  {| mode := "classification";
     data := [("feat", ["X"; "X"; "X"])];
     predict_function := scenario_predict;
     targs := [0; 1; 0]%Z;
     preds := [0; 1; 1]%Z;
     all_labels := [0; 1]%Z |}.

Definition empty_data : Tabular value :=
  {| columns := ["feat"]; rows := []; target_column := None |}.

(** A regressor that estimates 0.5 for every row. *)
Definition constant_estimate (batch : Tabular value) : ndarray :=
  {| shape1 := 1; items := map (fun _ => [0.5]%float) (rows batch) |}.

(* ================================================================= *)
(** * Properties *)

Unset Implicit Arguments.

(** ** Dictionaries *)

Section DictFacts.
Context {K V : Type} `{PyKey K}.

Lemma dict_get_set_same (k : K) (v : V) (d : dict K V) :
  dict_get k (dict_set k v d) = Some v.
Proof.
  induction d as [|[k' v'] d IH]; simpl.
  - destruct (key_eq_dec k k); congruence.
  - destruct (key_eq_dec k k') as [E|E]; simpl.
    + destruct (key_eq_dec k k'); congruence.
    + destruct (key_eq_dec k k'); congruence.
Qed.

Lemma dict_get_set_other (k k0 : K) (v : V) (d : dict K V) :
  k0 <> k -> dict_get k0 (dict_set k v d) = dict_get k0 d.
Proof.
  intros Hne. induction d as [|[k' v'] d IH]; simpl.
  - destruct (key_eq_dec k0 k); congruence.
  - destruct (key_eq_dec k k') as [E|E]; simpl.
    + subst k'. destruct (key_eq_dec k0 k); congruence.
    + destruct (key_eq_dec k0 k'); congruence.
Qed.

Lemma dict_set_set (k : K) (v w : V) (d : dict K V) :
  dict_set k w (dict_set k v d) = dict_set k w d.
Proof.
  induction d as [|[k' v'] d IH]; simpl.
  - destruct (key_eq_dec k k); congruence.
  - destruct (key_eq_dec k k') as [E|E]; simpl.
    + destruct (key_eq_dec k k'); congruence.
    + destruct (key_eq_dec k k'); congruence.
Qed.

Lemma dict_get_In (k : K) (v : V) (d : dict K V) :
  dict_get k d = Some v -> In (k, v) d.
Proof.
  induction d as [|[k' v'] d IH]; simpl; [discriminate|].
  destruct (key_eq_dec k k') as [E|E]; intros Hg.
  - left. congruence.
  - right. auto.
Qed.

Lemma dict_get_None (k : K) (d : dict K V) :
  dict_get k d = None <-> ~ In k (map fst d).
Proof.
  induction d as [|[k' v'] d IH]; simpl.
  - tauto.
  - destruct (key_eq_dec k k') as [E|E].
    + split; [discriminate|]. intros Hn. exfalso. apply Hn. left. congruence.
    + rewrite IH. split.
      * intros Hn [E'|Hin]; [congruence|tauto].
      * tauto.
Qed.

Lemma dict_set_keys_present (k : K) (v v0 : V) (d : dict K V) :
  dict_get k d = Some v0 -> map fst (dict_set k v d) = map fst d.
Proof.
  induction d as [|[k' v'] d IH]; simpl; [discriminate|].
  destruct (key_eq_dec k k') as [E|E]; simpl; intros Hg.
  - reflexivity.
  - f_equal. auto.
Qed.

Lemma dict_set_keys_absent (k : K) (v : V) (d : dict K V) :
  dict_get k d = None -> dict_set k v d = d ++ [(k, v)].
Proof.
  induction d as [|[k' v'] d IH]; simpl; [reflexivity|].
  destruct (key_eq_dec k k') as [E|E]; simpl; intros Hg.
  - discriminate.
  - f_equal. auto.
Qed.

End DictFacts.

Lemma defaultdict_append_eq {K A : Type} `{PyKey K} (k : K) (x : A)
  (d : dict K (list A)) :
  defaultdict_append k x d =
  dict_set k (match dict_get k d with Some l => l ++ [x] | None => [x] end) d.
Proof.
  unfold defaultdict_append, defaultdict_getitem.
  destruct (dict_get k d); [reflexivity|].
  simpl. apply dict_set_set.
Qed.

(** ** Loops *)

Lemma for_each_app {A S : Type} (xs ys : list A) (body : S -> A -> outcome S)
  (s : S) :
  for_each (xs ++ ys) body s = (s' <- for_each xs body s ;; for_each ys body s').
Proof.
  revert s. induction xs as [|x xs IH]; intros s; simpl; [reflexivity|].
  destruct (body s x); simpl; auto.
Qed.

Lemma for_each_total {A S : Type} (xs : list A) (body : S -> A -> outcome S)
  (step : S -> A -> S) (s : S) :
  (forall s x, In x xs -> body s x = Ok (step s x)) ->
  for_each xs body s = Ok (fold_left step xs s).
Proof.
  revert s. induction xs as [|x xs IH]; intros s Hb; simpl; [reflexivity|].
  rewrite Hb by (left; reflexivity). simpl. apply IH.
  intros s' y Hy. apply Hb. right. exact Hy.
Qed.

Lemma fold_dict_set_get {K V : Type} `{PyKey K} (f : K -> V) (ks : list K)
  (d : dict K V) (k : K) :
  dict_get k (fold_left (fun m l => dict_set l (f l) m) ks d) =
  if in_dec key_eq_dec k ks then Some (f k) else dict_get k d.
Proof.
  revert d. induction ks as [|k' ks IH]; intros d; simpl; [reflexivity|].
  rewrite IH.
  destruct (in_dec key_eq_dec k ks) as [Hin|Hnin].
  - destruct (key_eq_dec k' k); reflexivity.
  - destruct (key_eq_dec k' k) as [E|E].
    + subst k'. apply dict_get_set_same.
    + apply dict_get_set_other. congruence.
Qed.

(** ** The metric functions *)

Section MetricFacts.
Context {T P L : Type} `{PyEq P L} `{PyKey L}.

Lemma int_truediv_zero (a : nat) : int_truediv a 0 = Raise ZeroDivisionError.
Proof. reflexivity. Qed.

Lemma int_truediv_pos (a b : nat) :
  b <> 0 -> int_truediv a b = Ok (float_of_len a / float_of_len b)%float.
Proof.
  intros Hb. unfold int_truediv.
  destruct (Nat.eqb_spec b 0); [contradiction|reflexivity].
Qed.

Lemma length_nonempty {A : Type} (l : list A) : l <> [] -> length l <> 0.
Proof. destruct l; simpl; congruence. Qed.

Lemma dpl_empty_group (targ_a targ_b : list T) (pred_a pred_b : list P)
  (labels : list L) :
  pred_a = [] \/ pred_b = [] ->
  labels <> [] ->
  _dpl targ_a targ_b pred_a pred_b labels = Raise ZeroDivisionError.
Proof.
  intros Hempty Hlabels.
  destruct labels as [|label labels]; [congruence|].
  unfold _dpl. simpl.
  destruct pred_a as [|p pred_a].
  - reflexivity.
  - destruct Hempty as [Ha|Hb]; [discriminate|]. subst pred_b.
    rewrite int_truediv_pos by (simpl; congruence). reflexivity.
Qed.

(** C10: the true targets are passed to both metrics and never read: any
    two calls that agree on the predictions and on the labels give the same
    outcome. *)
Theorem metrics_ignore_targets
  (targ_a targ_b targ_a' targ_b' : list T) (pred_a pred_b : list P)
  (labels : list L) :
  _dpl targ_a targ_b pred_a pred_b labels
    = _dpl targ_a' targ_b' pred_a pred_b labels
  /\ _di targ_a targ_b pred_a pred_b labels
    = _di targ_a' targ_b' pred_a pred_b labels.
Proof. split; reflexivity. Qed.

End MetricFacts.

(** C2, the claim tested on the code: a call of [_dpl] with an empty group
    A ends in the raw [ZeroDivisionError], not in an error that names the
    empty group. *)
Lemma dpl_empty_group_counterexample :
  _dpl ([] : list Z) [1%Z] ([] : list Z) [1%Z] [1%Z]
  = Raise ZeroDivisionError.
Proof. reflexivity. Qed.


(** ** The index of feature values and the two groups *)

Section GroupFacts.
Context {F : Type} `{PyKey F}.

Abbreviation index_step :=
  (fun (d : dict F (list nat)) '(i, feat) => defaultdict_append feat i d).

Lemma dict_set_In {V : Type} (k k' : F) (v l : V) (d : dict F V) :
  In (k, l) (dict_set k' v d) -> In (k, l) d \/ (k = k' /\ l = v).
Proof.
  induction d as [|[k0 v0] d IH]; simpl.
  - intros [E|[]]. right. split; congruence.
  - destruct (key_eq_dec k' k0) as [E|E]; simpl.
    + intros [E'|Hin]; [right; split; congruence|left; right; exact Hin].
    + intros [E'|Hin]; [left; left; exact E'|].
      destruct (IH Hin) as [Hd|Hd]; [left; right; exact Hd|right; exact Hd].
Qed.

Lemma dict_set_NoDup {V : Type} (k : F) (v : V) (d : dict F V) :
  NoDup (map fst d) -> NoDup (map fst (dict_set k v d)).
Proof.
  intros Hnd. destruct (dict_get k d) as [v0|] eqn:Hg.
  - erewrite dict_set_keys_present by eassumption. exact Hnd.
  - rewrite dict_set_keys_absent by assumption. rewrite map_app. simpl.
    apply NoDup_app; [exact Hnd|repeat constructor; simpl; tauto|].
    intros x Hx [E|[]]. subst x. apply dict_get_None in Hg. tauto.
Qed.

Lemma dict_set_append_perm (k : F) (i : nat) (l : list nat)
  (d : dict F (list nat)) :
  dict_get k d = Some l ->
  Permutation (concat (map snd (dict_set k (l ++ [i]) d)))
              (concat (map snd d) ++ [i]).
Proof.
  induction d as [|[k0 l0] d IH]; simpl; [discriminate|].
  destruct (key_eq_dec k k0) as [E|E]; simpl; intros Hg.
  - injection Hg as ->. rewrite <- !app_assoc.
    apply Permutation_app_head, Permutation_app_comm.
  - rewrite <- app_assoc. apply Permutation_app_head. auto.
Qed.

Lemma append_perm (k : F) (i : nat) (d : dict F (list nat)) :
  Permutation (concat (map snd (defaultdict_append k i d)))
              (concat (map snd d) ++ [i]).
Proof.
  rewrite defaultdict_append_eq.
  destruct (dict_get k d) as [l|] eqn:Hg.
  - apply dict_set_append_perm. exact Hg.
  - rewrite dict_set_keys_absent by assumption. rewrite map_app, concat_app. simpl.
    reflexivity.
Qed.

Lemma append_get_None (k k' : F) (i : nat) (d : dict F (list nat)) :
  dict_get k (defaultdict_append k' i d) = None <->
  k <> k' /\ dict_get k d = None.
Proof.
  rewrite defaultdict_append_eq.
  destruct (key_eq_dec k k') as [E|E].
  - subst k'. rewrite dict_get_set_same. split; [discriminate|tauto].
  - rewrite dict_get_set_other by exact E. tauto.
Qed.

Lemma append_In (k k' : F) (i i' : nat) (l : list nat)
  (d : dict F (list nat)) :
  In (k, l) (defaultdict_append k' i' d) -> In i l ->
  (exists l0, In (k, l0) d /\ In i l0) \/ (k = k' /\ i = i').
Proof.
  rewrite defaultdict_append_eq. intros Hin Hi.
  apply dict_set_In in Hin. destruct Hin as [Hin|[-> ->]].
  - left. exists l. tauto.
  - destruct (dict_get k' d) as [l0|] eqn:Hg.
    + apply in_app_or in Hi. destruct Hi as [Hi|[E|[]]].
      * left. exists l0. split; [apply dict_get_In; exact Hg|exact Hi].
      * right. split; congruence.
    + destruct Hi as [E|[]]. right. split; congruence.
Qed.

(** The loop of lines 97-99, started at position [s] on a dictionary [d0]. *)
Lemma index_loop_invariant (vs : list F) :
  forall (s : nat) (d0 : dict F (list nat)),
    let d := fold_left index_step (combine (seq s (length vs)) vs) d0 in
    (NoDup (map fst d0) -> NoDup (map fst d))
    /\ Permutation (concat (map snd d))
                   (concat (map snd d0) ++ seq s (length vs))
    /\ (forall k, dict_get k d = None <-> dict_get k d0 = None /\ ~ In k vs)
    /\ (forall k l i, In (k, l) d -> In i l ->
          (exists l0, In (k, l0) d0 /\ In i l0)
          \/ (s <= i /\ nth_error vs (i - s) = Some k)).
Proof.
  induction vs as [|v vs IH]; intros s d0; simpl.
  - split; [tauto|]. split; [rewrite app_nil_r; reflexivity|].
    split; [intros k; tauto|].
    intros k l i Hin Hi. left. exists l. tauto.
  - destruct (IH (S s) (defaultdict_append v s d0)) as (Hnd & Hperm & Hkeys & Hmem).
    split; [|split; [|split]].
    + intros Hd0. apply Hnd. rewrite defaultdict_append_eq.
      apply dict_set_NoDup. exact Hd0.
    + rewrite Hperm. rewrite (append_perm v s d0), <- app_assoc. reflexivity.
    + intros k. rewrite Hkeys, append_get_None. split.
      * intros [[Hne Hg] Hn]. split; [exact Hg|]. intros [E|Hin]; [congruence|tauto].
      * intros [Hg Hn]. split; [split; [|exact Hg]|]; intros E; apply Hn;
          [left; congruence|right; exact E].
    + intros k l i Hin Hi.
      destruct (Hmem k l i Hin Hi) as [(l0 & Hl0 & Hi0)|[Hle Hnth]].
      * destruct (append_In _ _ _ _ _ _ Hl0 Hi0) as [Hold|[-> ->]].
        -- left. exact Hold.
        -- right. split; [lia|]. rewrite Nat.sub_diag. reflexivity.
      * right. split; [lia|].
        replace (i - s) with (S (i - S s)) by lia. exact Hnth.
Qed.

Lemma feat_value2idx_keys (values : list F) (v : F) :
  dict_contains v (feat_value2idx values) = true <-> In v values.
Proof.
  unfold dict_contains, feat_value2idx.
  destruct (index_loop_invariant values 0 []) as (_ & _ & Hkeys & _).
  specialize (Hkeys v). simpl in Hkeys.
  destruct (dict_get v _) as [l|].
  - split; [|reflexivity]. intros _.
    destruct (in_dec key_eq_dec v values) as [Hin|Hn]; [exact Hin|].
    assert (Some l = None) by (apply Hkeys; tauto). discriminate.
  - split; [discriminate|]. intros Hin.
    assert (@None (list nat) = None /\ ~ In v values) by (apply Hkeys; reflexivity).
    tauto.
Qed.

Lemma feat_value2idx_NoDup (values : list F) :
  NoDup (map fst (feat_value2idx values)).
Proof.
  destruct (index_loop_invariant values 0 []) as (Hnd & _).
  apply Hnd. constructor.
Qed.

Lemma feat_value2idx_perm (values : list F) :
  Permutation (concat (map snd (feat_value2idx values)))
              (seq 0 (length values)).
Proof.
  destruct (index_loop_invariant values 0 []) as (_ & Hperm & _).
  exact Hperm.
Qed.

Lemma feat_value2idx_In (values : list F) (k : F) (l : list nat) (i : nat) :
  In (k, l) (feat_value2idx values) -> In i l -> nth_error values i = Some k.
Proof.
  intros Hin Hi.
  destruct (index_loop_invariant values 0 []) as (_ & _ & _ & Hmem).
  destruct (Hmem k l i Hin Hi) as [(l0 & [] & _)|[_ Hnth]].
  rewrite Nat.sub_0_r in Hnth. exact Hnth.
Qed.

End GroupFacts.

Section OneVsRest.
Context {F : Type} `{PyKey F}.

Abbreviation rest_step v :=
  (fun (group : list nat) '((feat, indices) : F * list nat) =>
     if key_eq_dec feat v then group else group ++ indices).

Lemma rest_loop (v : F) (d : dict F (list nat)) (g0 : list nat) :
  fold_left (rest_step v) d g0 =
  g0 ++ flat_map (fun '(feat, indices) =>
                    if key_eq_dec feat v then [] else indices) d.
Proof.
  revert g0. induction d as [|[k l] d IH]; intros g0; simpl.
  - rewrite app_nil_r. reflexivity.
  - rewrite IH. destruct (key_eq_dec k v); simpl; [reflexivity|].
    rewrite app_assoc. reflexivity.
Qed.

Lemma rest_all (v : F) (d : dict F (list nat)) :
  ~ In v (map fst d) ->
  flat_map (fun '(feat, indices) =>
              if key_eq_dec feat v then [] else indices) d
  = concat (map snd d).
Proof.
  induction d as [|[k l] d IH]; simpl; [reflexivity|].
  intros Hn. destruct (key_eq_dec k v) as [E|E]; [tauto|].
  rewrite IH by tauto. reflexivity.
Qed.

Lemma rest_In (v : F) (d : dict F (list nat)) (i : nat) :
  In i (flat_map (fun '(feat, indices) =>
                    if key_eq_dec feat v then [] else indices) d) ->
  exists k l, In (k, l) d /\ k <> v /\ In i l.
Proof.
  rewrite in_flat_map. intros ([k l] & Hin & Hi).
  destruct (key_eq_dec k v) as [E|E]; [destruct Hi|].
  exists k, l. tauto.
Qed.

Lemma one_vs_rest_perm (v : F) (d : dict F (list nat)) (group_a : list nat) :
  NoDup (map fst d) ->
  dict_get v d = Some group_a ->
  Permutation
    (group_a ++ flat_map (fun '(feat, indices) =>
                            if key_eq_dec feat v then [] else indices) d)
    (concat (map snd d)).
Proof.
  induction d as [|[k l] d IH]; simpl; [discriminate|].
  intros Hnd Hg. inversion Hnd as [|? ? Hk Hnd']; subst.
  destruct (key_eq_dec v k) as [E|E].
  - injection Hg as ->. subst k.
    destruct (key_eq_dec v v) as [_|Hne]; [|congruence].
    simpl. rewrite rest_all by exact Hk. reflexivity.
  - destruct (key_eq_dec k v) as [E'|_]; [congruence|].
    rewrite Permutation_app_swap_app.
    apply Permutation_app_head. apply IH; assumption.
Qed.

(** C5: in the one-value-against-the-rest mode the two groups split the
    rows of the column: group A holds exactly the rows whose feature equals
    the value, group B exactly the rows with another value, no row is in
    both, every row is in one of them, and no row is listed twice. *)
Theorem one_vs_rest_partitions_rows (values : list F) (v : F) :
  In v values ->
  forall group_a group_b,
    groups (feat_value2idx values) (SingleValue v) = (group_a, group_b) ->
    (forall i, In i group_a <-> nth_error values i = Some v)
    /\ (forall i, In i group_b <->
                  exists w, nth_error values i = Some w /\ w <> v)
    /\ (forall i, ~ (In i group_a /\ In i group_b))
    /\ (forall i, i < length values <-> In i group_a \/ In i group_b)
    /\ NoDup (group_a ++ group_b).
Proof.
  intros Hv group_a group_b Hgroups.
  simpl in Hgroups. unfold one_vs_rest, defaultdict_getitem in Hgroups.
  apply feat_value2idx_keys in Hv. unfold dict_contains in Hv.
  destruct (dict_get v (feat_value2idx values)) as [ga|] eqn:Hg;
    [|discriminate].
  unfold dict_items in Hgroups. rewrite rest_loop in Hgroups. simpl in Hgroups.
  injection Hgroups as <- <-.
  set (gb := flat_map _ _).
  assert (Hperm : Permutation (ga ++ gb) (seq 0 (length values))).
  { rewrite <- feat_value2idx_perm.
    apply one_vs_rest_perm; [apply feat_value2idx_NoDup|exact Hg]. }
  assert (Ha : forall i, In i ga -> nth_error values i = Some v).
  { intros i Hi. apply (feat_value2idx_In values v ga i); [|exact Hi].
    apply dict_get_In. exact Hg. }
  assert (Hb : forall i, In i gb ->
                 exists w, nth_error values i = Some w /\ w <> v).
  { intros i Hi. apply rest_In in Hi. destruct Hi as (k & l & Hin & Hne & Hi).
    exists k. split; [|exact Hne].
    apply (feat_value2idx_In values k l i); assumption. }
  assert (Hall : forall i, i < length values <-> In i ga \/ In i gb).
  { intros i. rewrite <- in_app_iff.
    split; intros Hi.
    - apply (Permutation_in _ (Permutation_sym Hperm)). apply in_seq. lia.
    - apply (Permutation_in _ Hperm) in Hi. apply in_seq in Hi. lia. }
  split; [|split; [|split; [|split]]].
  - intros i. split; [apply Ha|]. intros Hnth.
    assert (Hlt : i < length values)
      by (apply nth_error_Some; congruence).
    apply Hall in Hlt. destruct Hlt as [Hi|Hi]; [exact Hi|].
    apply Hb in Hi. destruct Hi as (w & Hw & Hne). congruence.
  - intros i. split; [apply Hb|]. intros (w & Hw & Hne).
    assert (Hlt : i < length values)
      by (apply nth_error_Some; congruence).
    apply Hall in Hlt. destruct Hlt as [Hi|Hi]; [|exact Hi].
    apply Ha in Hi. congruence.
  - intros i [Hia Hib]. apply Ha in Hia. apply Hb in Hib.
    destruct Hib as (w & Hw & Hne). congruence.
  - exact Hall.
  - apply (Permutation_NoDup (Permutation_sym Hperm)). apply seq_NoDup.
Qed.

End OneVsRest.

Lemma one_vs_rest_partitions_rows_witness :
  (forall i, In i [0; 1] <-> nth_error ["X"; "X"; "Y"; "Z"] i = Some "X")
  /\ (forall i, In i [2; 3] <->
                exists w, nth_error ["X"; "X"; "Y"; "Z"] i = Some w
                          /\ w <> "X")
  /\ (forall i, ~ (In i [0; 1] /\ In i [2; 3]))
  /\ (forall i, i < 4 <-> In i [0; 1] \/ In i [2; 3])
  /\ NoDup ([0; 1] ++ [2; 3]).
Proof.
  apply (one_vs_rest_partitions_rows ["X"; "X"; "Y"; "Z"] "X").
  - simpl. left. reflexivity.
  - reflexivity.
Defined.

(** ** Validation of the feature values in [explain] *)

Section Validation.
Context {F T P L : Type} `{PyKey F} `{PyStr F} `{PyEq P L} `{PyKey L}.


Lemma assert_known_ok (values : list F) (v : F) :
  In v values -> assert_known (feat_value2idx values) v = Ok tt.
Proof.
  intros Hin. unfold assert_known.
  apply feat_value2idx_keys in Hin. rewrite Hin. reflexivity.
Qed.

Lemma assert_known_fails (values : list F) (v : F) :
  ~ In v values ->
  assert_known (feat_value2idx values) v = Raise (UnknownFeatureValue v).
Proof.
  intros Hn. unfold assert_known.
  destruct (dict_contains v (feat_value2idx values)) eqn:Hc.
  - apply feat_value2idx_keys in Hc. contradiction.
  - reflexivity.
Qed.

Lemma assert_all_known (values feats : list F) :
  Forall (fun x => In x values) feats ->
  for_each feats (fun _ feat => assert_known (feat_value2idx values) feat) tt
  = Ok tt.
Proof.
  induction 1 as [|x feats Hx _ IH]; simpl; [reflexivity|].
  rewrite assert_known_ok by exact Hx. simpl. exact IH.
Qed.

Lemma assert_first_unknown (values known rest : list F) (v : F) :
  Forall (fun x => In x values) known ->
  ~ In v values ->
  for_each (known ++ v :: rest)
    (fun _ feat => assert_known (feat_value2idx values) feat) tt
  = Raise (UnknownFeatureValue v).
Proof.
  intros Hknown Hv. rewrite for_each_app, assert_all_known by exact Hknown.
  simpl. rewrite assert_known_fails by exact Hv. reflexivity.
Qed.

(** Every list with an unknown value has a first one. *)
Lemma first_unknown (values feats : list F) :
  (exists v, In v feats /\ ~ In v values) ->
  exists known v rest,
    feats = known ++ v :: rest
    /\ Forall (fun x => In x values) known /\ ~ In v values.
Proof.
  induction feats as [|x feats IH]; intros (v & Hin & Hn); [destruct Hin|].
  destruct (in_dec key_eq_dec x values) as [Hx|Hx].
  - destruct IH as (known & w & rest & -> & Hk & Hw).
    { destruct Hin as [->|Hin]; [contradiction|]. exists v. tauto. }
    exists (x :: known), w, rest. repeat split; auto.
  - exists [], x, feats. repeat split; auto.
Qed.

Lemma explain_two_lists_unknown (self : BiasAnalyzer F T P L)
  (feature_column : string) (values group_a group_b known rest : list F)
  (v : F) (target_value_or_threshold : labels_arg L) :
  dict_get feature_column (data self) = Some values ->
  group_a ++ group_b = known ++ v :: rest ->
  Forall (fun x => In x values) known ->
  ~ In v values ->
  explain self feature_column (ValueLists [group_a; group_b])
          target_value_or_threshold
  = Raise (UnknownFeatureValue v).
Proof.
  intros Hcol Hsplit Hknown Hv. unfold explain, dict_contains.
  rewrite Hcol. simpl.
  pose proof (assert_first_unknown values known rest v Hknown Hv) as Hloop.
  rewrite <- Hsplit, for_each_app in Hloop.
  destruct (for_each group_a _ tt) as [[]|e]; simpl in *.
  - rewrite Hloop. reflexivity.
  - injection Hloop as ->. reflexivity.
Qed.

(** C6: a call of [explain] on an existing column that mentions a feature
    value the column does not hold raises the assertion error that names
    such a value (in the two-lists form, the first one in the order of the
    lists), whatever the groups, targets and predictions are: the values
    are checked before the groups are formed and before any metric is
    computed, and no result is printed or returned. *)
Theorem explain_unknown_feature_value (self : BiasAnalyzer F T P L)
  (feature_column : string) (values : list F)
  (target_value_or_threshold : labels_arg L) :
  dict_get feature_column (data self) = Some values ->
  (forall v, ~ In v values ->
     explain self feature_column (SingleValue v) target_value_or_threshold
     = Raise (UnknownFeatureValue v))
  /\ (forall group_a group_b,
        (exists v, In v (group_a ++ group_b) /\ ~ In v values) ->
        exists v, In v (group_a ++ group_b) /\ ~ In v values
          /\ explain self feature_column (ValueLists [group_a; group_b])
                     target_value_or_threshold
             = Raise (UnknownFeatureValue v)).
Proof.
  intros Hcol. split.
  - intros v Hv. unfold explain, dict_contains. rewrite Hcol. simpl.
    rewrite assert_known_fails by exact Hv. reflexivity.
  - intros group_a group_b Hex.
    destruct (first_unknown values (group_a ++ group_b) Hex)
      as (known & v & rest & Hsplit & Hknown & Hv).
    exists v. split; [rewrite Hsplit; apply in_elt|]. split; [exact Hv|].
    apply (explain_two_lists_unknown self feature_column values
             group_a group_b known rest v); assumption.
Qed.

End Validation.

(** ** Batches *)

Section Batches.
Context {A : Type}.

Lemma firstn_plus (a b : nat) (l : list A) :
  firstn (a + b) l = firstn a l ++ firstn b (skipn a l).
Proof.
  revert l. induction a as [|a IH]; intros l; simpl; [reflexivity|].
  destruct l as [|x l]; simpl.
  - rewrite firstn_nil. reflexivity.
  - rewrite IH. reflexivity.
Qed.

(** The first [c] batches of [s] rows are the first [c * s] rows. *)
Lemma concat_batches (s : nat) (l : list A) (c : nat) :
  concat (map (fun i => firstn s (skipn i l))
              (map (fun k => k * s) (seq 0 c)))
  = firstn (c * s) l.
Proof.
  induction c as [|c IH]; [reflexivity|].
  rewrite seq_S, !map_app, concat_app, IH. simpl.
  rewrite app_nil_r, <- firstn_plus. f_equal. lia.
Qed.


End Batches.

(** The number of batches: [ceil(n / s)]. *)
Lemma batch_count (n s : nat) :
  0 < s ->
  let c := (n + s - 1) / s in
  n <= c * s /\ (0 < n -> 0 < c /\ (c - 1) * s < n).
Proof.
  intros Hs c.
  pose proof (Nat.div_mod_eq (n + s - 1) s) as Hdm.
  pose proof (Nat.mod_upper_bound (n + s - 1) s ltac:(lia)) as Hr.
  fold c in Hdm. split; [nia|]. intros Hn.
  assert (0 < c) by (destruct c; [nia|lia]).
  split; [lia|]. nia.
Qed.

(** ** The order of binary64 numbers *)





Lemma key_le_trans (a b c : Z * Z * Z) :
  ~ key_lt b a -> ~ key_lt c b -> ~ key_lt c a.
Proof.
  destruct a as [[a1 a2] a3], b as [[b1 b2] b3], c as [[c1 c2] c3].
  unfold key_lt. lia.
Qed.





Section FloatOrder.
Variables x y z : float.
Hypothesis Hx : PrimFloat.is_nan x = false.
Hypothesis Hy : PrimFloat.is_nan y = false.
Hypothesis Hz : PrimFloat.is_nan z = false.




End FloatOrder.



(** ** [argmax] *)



(** ** Batched prediction *)


Section Predict.
Context {V : Type}.
Variable predict_function : Tabular V -> ndarray.
Variable X : Tabular V.

Lemma predict_unfold (mode : string) (batch_size : Z) :
  (0 < batch_size)%Z ->
  _predict mode predict_function X batch_size =
  (z <- np_concatenate
          (map predict_function (batches_of X (Z.to_nat batch_size))) ;;
   if String.eqb mode "regression" then Ok (map VFloat (flatten z))
   else idx <- np_argmax_axis1 z ;; Ok (map (fun i => VInt (Z.of_nat i)) idx)).
Proof.
  intros Hb. unfold _predict, py_range, batches_of.
  destruct (Z.eqb_spec batch_size 0); [lia|].
  destruct (Z.ltb_spec batch_size 0); [lia|].
  simpl. rewrite !map_map. reflexivity.
Qed.

Lemma predict_without_batches (mode : string) (batch_size : Z) :
  (batch_size <= 0)%Z ->
  _predict mode predict_function X batch_size = Raise ValueError.
Proof.
  intros Hb. unfold _predict, py_range.
  destruct (Z.eqb_spec batch_size 0); [reflexivity|].
  destruct (Z.ltb_spec batch_size 0); [reflexivity|lia].
Qed.

Lemma batches_rows (s : nat) :
  map (@rows V) (batches_of X s) =
  map (fun i => firstn s (skipn i (rows X)))
      (map (fun k => k * s) (seq 0 ((shape0 X + s - 1) / s))).
Proof.
  unfold batches_of. rewrite map_map. apply map_ext.
  intros i. simpl. f_equal. lia.
Qed.

Lemma batches_cover (s : nat) :
  0 < s -> concat (map (@rows V) (batches_of X s)) = rows X.
Proof.
  intros Hs. rewrite batches_rows, concat_batches.
  apply firstn_all2. apply (batch_count (shape0 X) s Hs).
Qed.




End Predict.

Section PredictClaims.
Context {V : Type}.

Lemma np_concatenate_uniform {B : Type} (c : nat) (f : B -> list (list float))
  (bs : list B) :
  bs <> [] ->
  np_concatenate (map (fun b => {| shape1 := c; items := f b |}) bs)
  = Ok {| shape1 := c; items := concat (map f bs) |}.
Proof.
  destruct bs as [|b bs]; [congruence|]. intros _. simpl.
  rewrite map_map. simpl.
  replace (forallb _ _) with true; [reflexivity|].
  symmetry. apply forallb_forall. intros x Hx.
  apply in_map_iff in Hx. destruct Hx as (b' & <- & _). simpl.
  apply Nat.eqb_refl.
Qed.

Lemma batches_of_nil (X : Tabular V) (s : nat) :
  0 < s -> (batches_of X s = [] <-> rows X = []).
Proof.
  intros Hs. split; intros He.
  - rewrite <- (batches_cover X s Hs), He. reflexivity.
  - unfold batches_of, shape0. rewrite He. simpl.
    rewrite Nat.div_small by lia. reflexivity.
Qed.

(** A prediction function that scores every row on its own, on the slices
    of [X]: the outcome of [_predict] does not depend on the batch size. *)
Lemma predict_rowwise (predict_function : Tabular V -> ndarray)
  (X : Tabular V) (mode : string) (c : nat) (g : list V -> list float)
  (batch_size : Z) :
  (forall i j, predict_function (slice X i j)
               = {| shape1 := c; items := map g (rows (slice X i j)) |}) ->
  (0 < batch_size)%Z ->
  _predict mode predict_function X batch_size =
  match rows X with
  | [] => Raise ValueError
  | _ :: _ =>
      let z := {| shape1 := c; items := map g (rows X) |} in
      if String.eqb mode "regression" then Ok (map VFloat (flatten z))
      else idx <- np_argmax_axis1 z ;;
           Ok (map (fun i => VInt (Z.of_nat i)) idx)
  end.
Proof.
  intros Hrow Hb. rewrite predict_unfold by exact Hb.
  set (s := Z.to_nat batch_size). assert (Hs : 0 < s) by lia.
  assert (Hmap : map predict_function (batches_of X s)
                 = map (fun B => {| shape1 := c; items := map g (rows B) |})
                       (batches_of X s)).
  { unfold batches_of. rewrite !map_map. apply map_ext. intros k. apply Hrow. }
  rewrite Hmap.
  destruct (rows X) as [|r rs] eqn:Hrows.
  - apply (batches_of_nil X s Hs) in Hrows. rewrite Hrows. reflexivity.
  - rewrite np_concatenate_uniform.
    + rewrite <- map_map with (g := map g) (f := @rows V).
      rewrite <- concat_map, (batches_cover X s Hs), Hrows. reflexivity.
    + intros He. apply (batches_of_nil X s Hs) in He. congruence.
Qed.

(** C7, as the code has it: for a prediction function that scores each row
    independently of the other rows of its batch, batch size 1 and batch
    size 64 give the same outcome of [_predict] (the same predictions, or
    the same error on an empty data set). *)
Theorem predict_invariant_to_batch_size
  (predict_function : Tabular V -> ndarray) (X : Tabular V) (mode : string)
  (c : nat) (g : list V -> list float) :
  (forall i j, predict_function (slice X i j)
               = {| shape1 := c; items := map g (rows (slice X i j)) |}) ->
  _predict mode predict_function X 1 = _predict mode predict_function X 64.
Proof.
  intros Hrow.
  rewrite (predict_rowwise predict_function X mode c g 1 Hrow) by lia.
  rewrite (predict_rowwise predict_function X mode c g 64 Hrow) by lia.
  reflexivity.
Qed.

End PredictClaims.

(** ** Rounding to binary64 *)

Section Rounding.
Local Open Scope Z_scope.

Lemma shr_m_of_loc (m : Z) (l : location) :
  shr_m (shr_record_of_loc m l) = m.
Proof. destruct l as [|[]]; reflexivity. Qed.

Lemma shr_1_m (mrs : shr_record) :
  0 <= shr_m mrs -> shr_m (shr_1 mrs) = Z.div2 (shr_m mrs).
Proof.
  destruct mrs as [m r s]. simpl.
  destruct m as [|[p|p|]|p]; simpl; try reflexivity; lia.
Qed.

Lemma iter_shr_1_m (p : positive) :
  forall mrs, 0 <= shr_m mrs ->
    shr_m (iter_pos shr_1 p mrs) = Z.shiftr (shr_m mrs) (Z.pos p).
Proof.
  induction p as [p IH|p IH|]; intros mrs Hm; simpl iter_pos.
  - assert (H1 : 0 <= shr_m (shr_1 mrs)).
    { rewrite shr_1_m by exact Hm. rewrite Z.div2_spec.
      apply Z.shiftr_nonneg. exact Hm. }
    assert (H2 : 0 <= shr_m (iter_pos shr_1 p (shr_1 mrs))).
    { rewrite IH by exact H1. apply Z.shiftr_nonneg. exact H1. }
    rewrite IH by exact H2. rewrite IH by exact H1.
    rewrite shr_1_m by exact Hm. rewrite Z.div2_spec.
    rewrite !Z.shiftr_shiftr by lia. f_equal. lia.
  - assert (H1 : 0 <= shr_m (iter_pos shr_1 p mrs)).
    { rewrite IH by exact Hm. apply Z.shiftr_nonneg. exact Hm. }
    rewrite IH by exact H1. rewrite IH by exact Hm.
    rewrite Z.shiftr_shiftr by lia. f_equal. lia.
  - rewrite shr_1_m by exact Hm. apply Z.div2_spec.
Qed.

Lemma Zdigits2_log2 (m : Z) : 0 < m -> Zdigits2 m = Z.log2 m + 1.
Proof.
  destruct m as [|p|p]; try lia. intros _. simpl.
  induction p as [p IH|p IH|]; simpl in *; try reflexivity;
    destruct p; simpl in *; lia.
Qed.

Lemma shiftr_digits (m n : Z) :
  0 < m -> 0 < n -> n <= Z.log2 m ->
  0 < Z.shiftr m n /\ Zdigits2 (Z.shiftr m n) = Zdigits2 m - n.
Proof.
  intros Hm Hn Hlog.
  assert (Hpos : 0 < Z.shiftr m n).
  { assert (0 <= Z.shiftr m n) by (apply Z.shiftr_nonneg; lia).
    assert (Z.shiftr m n <> 0); [|lia].
    rewrite Z.shiftr_eq_0_iff. lia. }
  split; [exact Hpos|].
  rewrite !Zdigits2_log2 by assumption.
  rewrite Z.log2_shiftr by exact Hm. lia.
Qed.

(** One alignment step of the rounding: a positive mantissa whose value is
    not below the smallest subnormal number stays positive, the position of
    its leading bit is kept and the new exponent is known. *)
Lemma shr_fexp_positive (m e : Z) (l : location) :
  0 < m -> - 1073 <= Zdigits2 m + e ->
  exists mrs e',
    shr_fexp prec emax m e l = (mrs, e')
    /\ 0 < shr_m mrs
    /\ Zdigits2 (shr_m mrs) + e' = Zdigits2 m + e
    /\ e' = Z.max e (fexp prec emax (Zdigits2 m + e)).
Proof.
  intros Hm Hd. unfold shr_fexp, shr.
  pose proof (Zdigits2_log2 m Hm) as Hlog.
  pose proof (Z.log2_nonneg m) as Hnn.
  unfold fexp, emin, prec, emax in *.
  destruct (Z.max (Zdigits2 m + e - 53) (3 - 1024 - 53) - e) as [|p|p] eqn:Hn.
  - eexists _, _. split; [reflexivity|]. rewrite shr_m_of_loc. lia.
  - eexists _, _. split; [reflexivity|].
    rewrite iter_shr_1_m by (rewrite shr_m_of_loc; lia).
    rewrite shr_m_of_loc.
    destruct (shiftr_digits m (Z.pos p) Hm ltac:(lia) ltac:(lia)) as [Hp Hdig].
    rewrite Hdig. lia.
  - eexists _, _. split; [reflexivity|]. rewrite shr_m_of_loc. lia.
Qed.

Lemma round_nearest_even_bounds (m : Z) (l : location) :
  0 < m ->
  0 < round_nearest_even m l
  /\ Zdigits2 m <= Zdigits2 (round_nearest_even m l) <= Zdigits2 m + 1.
Proof.
  intros Hm.
  assert (Hcases : round_nearest_even m l = m \/ round_nearest_even m l = m + 1).
  { unfold round_nearest_even. destruct l as [|[]]; auto.
    destruct (Z.even m); auto. }
  destruct Hcases as [-> | ->]; [lia|].
  split; [lia|]. rewrite !Zdigits2_log2 by lia.
  pose proof (Z.log2_le_mono m (m + 1) ltac:(lia)).
  pose proof (Z.log2_succ_le m). unfold Z.succ in *. lia.
Qed.

(** The result of a rounding is a number of the given sign, never a zero,
    when the rounded value is not below the smallest subnormal number. *)
Lemma binary_round_aux_positive (s : bool) (m e : Z) (l : location) :
  0 < m -> - 1073 <= Zdigits2 m + e ->
  exists m' e',
    e' <= Z.max e (Z.max (Zdigits2 m + e - 52) (- 1074))
    /\ binary_round_aux prec emax s m e l =
       if e' <=? emax - prec then S754_finite s m' e' else S754_infinity s.
Proof.
  intros Hm Hd. unfold binary_round_aux.
  destruct (shr_fexp_positive m e l Hm Hd) as (mrs1 & e1 & -> & Hm1 & Hd1 & He1).
  destruct (round_nearest_even_bounds (shr_m mrs1) (loc_of_shr_record mrs1) Hm1)
    as [Hr Hrd].
  destruct (shr_fexp_positive _ e1 loc_Exact Hr ltac:(lia))
    as (mrs2 & e2 & -> & Hm2 & Hd2 & He2).
  destruct (shr_m mrs2) as [|p|p]; try lia.
  exists p, e2. split; [|reflexivity].
  unfold fexp, emin, prec, emax in *. lia.
Qed.

Lemma iter_xO_pow (m d : positive) :
  Z.pos (Pos.iter xO m d) = Z.pos m * 2 ^ Z.pos d.
Proof.
  induction d as [|d IH] using Pos.peano_ind.
  - simpl. lia.
  - rewrite Pos.iter_succ, Pos2Z.inj_succ, Z.pow_succ_r by lia.
    rewrite Pos2Z.inj_xO, IH. lia.
Qed.

Lemma shl_align_spec (m : positive) (e e' : Z) :
  exists mz ez,
    shl_align m e e' = (mz, ez)
    /\ ez = Z.min e e'
    /\ Zdigits2 (Z.pos mz) + ez = Zdigits2 (Z.pos m) + e.
Proof.
  unfold shl_align. destruct (e' - e) as [|d|d] eqn:Hd.
  - eexists _, _. split; [reflexivity|]. lia.
  - eexists _, _. split; [reflexivity|]. lia.
  - eexists _, _. split; [reflexivity|]. split; [lia|].
    rewrite iter_xO_pow, !Zdigits2_log2 by lia.
    rewrite Z.log2_mul_pow2 by lia. lia.
Qed.

Lemma binary_round_positive (s : bool) (m : positive) (e : Z) :
  - 1073 <= Zdigits2 (Z.pos m) + e ->
  exists m' e',
    e' <= Z.max e (Z.max (Zdigits2 (Z.pos m) + e - 52) (- 1074))
    /\ binary_round prec emax s m e =
       if e' <=? emax - prec then S754_finite s m' e' else S754_infinity s.
Proof.
  intros Hd. unfold binary_round.
  change (Z.pos (digits2_pos m)) with (Zdigits2 (Z.pos m)).
  destruct (shl_align_spec m e (fexp prec emax (Zdigits2 (Z.pos m) + e)))
    as (mz & ez & -> & Hez & Hdig).
  destruct (binary_round_aux_positive s (Z.pos mz) ez loc_Exact
              ltac:(lia) ltac:(lia)) as (m' & e' & He' & ->).
  exists m', e'. split; [lia|reflexivity].
Qed.


Lemma binary_round_aux_sign (m e : Z) (l : location) :
  sign_clear (binary_round_aux prec emax false m e l) = true.
Proof.
  unfold binary_round_aux.
  destruct (shr_fexp prec emax m e l) as [mrs1 e1].
  destruct (shr_fexp prec emax _ e1 loc_Exact) as [mrs2 e2].
  destruct (shr_m mrs2); [reflexivity| |reflexivity].
  destruct (e2 <=? emax - prec); reflexivity.
Qed.

Lemma binary_normalize_sign (m e : Z) :
  0 <= m -> sign_clear (binary_normalize prec emax m e false) = true.
Proof.
  destruct m as [|p|p]; intros Hm; try lia; simpl; [reflexivity|].
  unfold binary_round. destruct (shl_align _ _ _) as [mz ez].
  apply binary_round_aux_sign.
Qed.

Lemma SFdiv_sign (x y : spec_float) :
  sign_clear x = true -> sign_clear y = true ->
  sign_clear (SFdiv prec emax x y) = true.
Proof.
  destruct x as [sx|sx| |sx mx ex], y as [sy|sy| |sy my ey]; simpl;
    try reflexivity; intros Hx Hy;
    apply negb_true_iff in Hx; apply negb_true_iff in Hy; subst;
    try reflexivity.
  destruct (SFdiv_core_binary _ _ _ _ _ _) as [[mz ez] lz].
  apply binary_round_aux_sign.
Qed.

(** Adding [1e-8] to a number whose sign bit is clear never gives zero. *)
Lemma SFadd_eps_nonzero (x : spec_float) :
  sign_clear x = true ->
  SFeqb (SFadd prec emax x (S754_finite false 6044629098073146 (-79)))
        (S754_zero false) = false.
Proof.
  destruct x as [sx|sx| |sx mx ex]; simpl; try reflexivity;
    try (destruct sx; reflexivity).
  intros Hs. apply negb_true_iff in Hs. subst sx.
  set (ez := Z.min ex (-79)).
  destruct (shl_align_spec mx ex ez) as (a & ea & -> & Hea & Ha).
  destruct (shl_align_spec 6044629098073146 (-79) ez) as (b & eb & -> & Heb & Hb).
  simpl fst. simpl cond_Zopp. simpl Z.add.
  assert (Hdig : - 1073 <= Zdigits2 (Z.pos (a + b)) + ez).
  { assert (Hb' : Zdigits2 (Z.pos b) + eb = -26) by (rewrite Hb; reflexivity).
    rewrite !Zdigits2_log2 in * by lia.
    pose proof (Z.log2_le_mono (Z.pos b) (Z.pos (a + b)) ltac:(lia)). lia. }
  change (binary_normalize prec emax (Z.pos (a + b)) ez false)
    with (binary_round prec emax false (a + b) ez).
  destruct (binary_round_positive false (a + b) ez Hdig) as (m' & e' & _ & ->).
  destruct (e' <=? emax - prec); reflexivity.
Qed.

(** A finite number divided by itself is 1. *)
Lemma SFdiv_self (s : bool) (m : positive) (e : Z) :
  SFdiv prec emax (S754_finite s m e) (S754_finite s m e)
  = S754_finite false 4503599627370496 (-52).
Proof.
  unfold SFdiv, SFdiv_core_binary.
  rewrite !Z.sub_diag.
  change (Z.min (fexp prec emax 0) 0) with (-53).
  change (0 - -53) with 53.
  rewrite Z.shiftl_mul_pow2 by lia.
  assert (Hq : Z.div_eucl (Z.pos m * 2 ^ 53) (Z.pos m) = (2 ^ 53, 0)).
  { pose proof (Z.div_mul (2 ^ 53) (Z.pos m) ltac:(lia)) as Hd.
    pose proof (Z.mod_mul (2 ^ 53) (Z.pos m) ltac:(lia)) as Hr.
    rewrite (Z.mul_comm (2 ^ 53)) in Hd, Hr.
    unfold Z.div, Z.modulo in Hd, Hr.
    destruct (Z.div_eucl _ _) as [q r]. rewrite Hd, Hr. reflexivity. }
  rewrite Hq.
  assert (Hloc : new_location (Z.pos m) 0 = loc_Exact).
  { unfold new_location. destruct (Z.even (Z.pos m)); reflexivity. }
  rewrite Hloc, xorb_nilpotent. reflexivity.
Qed.

End Rounding.

(** ** Python floats *)

Lemma float_of_len_sign (n : nat) :
  sign_clear (Prim2SF (float_of_len n)) = true.
Proof.
  unfold float_of_len. rewrite FloatAxioms.of_uint63_spec.
  apply binary_normalize_sign. apply Uint63.to_Z_bounded.
Qed.

Lemma ratio_plus_eps_nonzero (a b : nat) :
  (float_of_len a / float_of_len b + eps =? 0)%float = false.
Proof.
  rewrite FloatAxioms.eqb_spec, FloatAxioms.add_spec, FloatAxioms.div_spec.
  change (Prim2SF eps) with (S754_finite false 6044629098073146 (-79)).
  change (Prim2SF 0) with (S754_zero false).
  apply SFadd_eps_nonzero. apply SFdiv_sign; apply float_of_len_sign.
Qed.

Lemma float_of_len_finite (n : nat) :
  0 < n -> (Z.of_nat n < 2 ^ 63)%Z ->
  exists m e, Prim2SF (float_of_len n) = S754_finite false m e.
Proof.
  intros Hn Hlt. unfold float_of_len.
  rewrite FloatAxioms.of_uint63_spec, Uint63.of_Z_spec.
  rewrite Z.mod_small by (change wB with (2 ^ 63)%Z; lia).
  destruct (Z.of_nat n) as [|p|p] eqn:Hp; try lia.
  simpl binary_normalize.
  assert (Hlog : (Z.log2 (Z.pos p) < 63)%Z)
    by (apply Z.log2_lt_pow2; lia).
  pose proof (Z.log2_nonneg (Z.pos p)) as Hnn.
  pose proof (Zdigits2_log2 (Z.pos p) ltac:(lia)) as Hd.
  destruct (binary_round_positive false p 0 ltac:(lia))
    as (m' & e' & He' & ->).
  exists m', e'.
  destruct (Z.leb_spec e' (emax - prec)) as [_|Hbad]; [reflexivity|].
  unfold emax, prec in Hbad. lia.
Qed.

Lemma float_div_self (x : float) (s : bool) (m : positive) (e : Z) :
  Prim2SF x = S754_finite s m e -> (x / x)%float = 1%float.
Proof.
  intros Hx. apply Prim2SF_inj. rewrite FloatAxioms.div_spec, Hx.
  unfold SF64div. rewrite SFdiv_self. reflexivity.
Qed.

Lemma len_div_self (n : nat) :
  0 < n -> (Z.of_nat n < 2 ^ 63)%Z ->
  (float_of_len n / float_of_len n)%float = 1%float.
Proof.
  intros Hn Hlt. destruct (float_of_len_finite n Hn Hlt) as (m & e & Hx).
  exact (float_div_self _ _ _ _ Hx).
Qed.

(** ** The values of the two metrics *)

Section MetricValues.
Context {T P L : Type} `{PyEq P L} `{PyKey L}.


Lemma dpl_total (targ_a targ_b : list T) (pred_a pred_b : list P)
  (labels : list L) :
  pred_a <> [] -> pred_b <> [] ->
  _dpl targ_a targ_b pred_a pred_b labels =
  Ok (fold_left
        (fun m l => dict_set l (proportion pred_a l - proportion pred_b l)%float m)
        labels []).
Proof.
  intros Ha Hb. unfold _dpl. apply for_each_total. intros m l _.
  rewrite !int_truediv_pos by (apply length_nonempty; assumption).
  reflexivity.
Qed.

Lemma di_total (targ_a targ_b : list T) (pred_a pred_b : list P)
  (labels : list L) :
  pred_a <> [] -> pred_b <> [] ->
  _di targ_a targ_b pred_a pred_b labels =
  Ok (fold_left
        (fun m l =>
           dict_set l (proportion pred_b l / (proportion pred_a l + eps))%float m)
        labels []).
Proof.
  intros Ha Hb. unfold _di. apply for_each_total. intros m l _.
  rewrite !int_truediv_pos by (apply length_nonempty; assumption).
  simpl. unfold float_truediv. rewrite ratio_plus_eps_nonzero. reflexivity.
Qed.

Lemma count_label_spec (pred : list P) (l : L) :
  count_label pred l = spec_count pred l.
Proof.
  unfold count_label. induction pred as [|p pred IH]; simpl; [reflexivity|].
  destruct (py_eq p l); simpl; rewrite IH; reflexivity.
Qed.

Lemma spec_count_le (pred : list P) (l : L) :
  spec_count pred l <= length pred.
Proof.
  induction pred as [|p pred IH]; simpl; [lia|].
  destruct (py_eq p l); lia.
Qed.

Lemma float_of_len_spec (n : nat) :
  (Z.of_nat n < 2 ^ 63)%Z -> float_of_len n = float_of_Z (Z.of_nat n).
Proof.
  intros Hn. unfold float_of_len, float_of_Z.
  rewrite <- (SF2Prim_Prim2SF (of_uint63 (of_Z (Z.of_nat n)))). f_equal.
  rewrite FloatAxioms.of_uint63_spec, Uint63.of_Z_spec.
  rewrite Z.mod_small by (change wB with (2 ^ 63)%Z; lia). reflexivity.
Qed.

(** On a group of any real length the proportion the code computes is the
    proportion of the specification. *)
Lemma proportion_spec (pred : list P) (l : L) :
  (Z.of_nat (length pred) < 2 ^ 63)%Z ->
  proportion pred l = spec_proportion pred l.
Proof.
  intros Hlt. unfold proportion, spec_proportion.
  pose proof (spec_count_le pred l) as Hle.
  rewrite count_label_spec, !float_of_len_spec by lia. reflexivity.
Qed.

(** C4: for two non-empty groups [_di] returns a mapping that gives every
    label of [labels] the quotient [qb / (qa + 1e-8)], group B over group
    A, where [qa] and [qb] are the specification's proportions
    [count(pred == l) / |pred|] of the label among the predictions of the
    groups; it has no other key. *)
Theorem di_is_qb_over_qa_plus_eps (targ_a targ_b : list T)
  (pred_a pred_b : list P) (labels : list L) :
  pred_a <> [] -> pred_b <> [] ->
  (Z.of_nat (length pred_a) < 2 ^ 63)%Z ->
  (Z.of_nat (length pred_b) < 2 ^ 63)%Z ->
  exists metrics,
    _di targ_a targ_b pred_a pred_b labels = Ok metrics
    /\ (forall l, In l labels ->
          dict_get l metrics
          = Some (spec_proportion pred_b l
                  / (spec_proportion pred_a l + eps))%float)
    /\ (forall l, ~ In l labels -> dict_get l metrics = None).
Proof.
  intros Ha Hb Hla Hlb. eexists. split; [apply di_total; assumption|].
  split; intros l Hl; rewrite fold_dict_set_get;
    destruct (in_dec key_eq_dec l labels); try tauto.
  rewrite !proportion_spec by assumption. reflexivity.
Qed.

Lemma count_label_all (pred : list P) (l : L) :
  (forall p, In p pred -> py_eq p l = true) ->
  count_label pred l = length pred.
Proof.
  intros Hall. unfold count_label. f_equal.
  induction pred as [|p pred IH]; simpl; [reflexivity|].
  rewrite Hall by (left; reflexivity). f_equal. apply IH.
  intros q Hq. apply Hall. right. exact Hq.
Qed.

Lemma proportion_all (pred : list P) (l : L) :
  pred <> [] -> (Z.of_nat (length pred) < 2 ^ 63)%Z ->
  (forall p, In p pred -> py_eq p l = true) ->
  proportion pred l = 1%float.
Proof.
  intros Hne Hlt Hall. unfold proportion.
  rewrite count_label_all by exact Hall.
  apply len_div_self; [|exact Hlt].
  apply length_nonempty in Hne. lia.
Qed.

(** C9: when every prediction of two non-empty groups is the label [l] (a
    constant classifier), DPL gives [l] the score 0 and DI gives it
    [1 / (1 + 1e-8)], which is within [1e-8] of 1. *)
Theorem constant_classifier_scores (targ_a targ_b : list T)
  (pred_a pred_b : list P) (labels : list L) (l : L) :
  pred_a <> [] -> pred_b <> [] ->
  (Z.of_nat (length pred_a) < 2 ^ 63)%Z ->
  (Z.of_nat (length pred_b) < 2 ^ 63)%Z ->
  (forall p, In p (pred_a ++ pred_b) -> py_eq p l = true) ->
  In l labels ->
  exists dpl di,
    _dpl targ_a targ_b pred_a pred_b labels = Ok dpl
    /\ dict_get l dpl = Some 0%float
    /\ _di targ_a targ_b pred_a pred_b labels = Ok di
    /\ dict_get l di = Some (1 / (1 + eps))%float
    /\ (abs (1 - 1 / (1 + eps)) <=? eps)%float = true.
Proof.
  intros Ha Hb Hla Hlb Hall Hl.
  assert (Hqa : proportion pred_a l = 1%float).
  { apply proportion_all; auto. intros p Hp. apply Hall, in_or_app. tauto. }
  assert (Hqb : proportion pred_b l = 1%float).
  { apply proportion_all; auto. intros p Hp. apply Hall, in_or_app. tauto. }
  eexists _, _.
  split; [apply dpl_total; assumption|].
  split; [|split; [apply di_total; assumption|split]].
  - rewrite fold_dict_set_get.
    destruct (in_dec key_eq_dec l labels); [|contradiction].
    rewrite Hqa, Hqb. reflexivity.
  - rewrite fold_dict_set_get.
    destruct (in_dec key_eq_dec l labels); [|contradiction].
    rewrite Hqa, Hqb. reflexivity.
  - reflexivity.
Qed.

End MetricValues.

(** ** [explain] after its checks *)

Section ExplainFacts.
Context {F T P L : Type} `{PyKey F} `{PyStr F} `{PyEq P L} `{PyKey L}.


Lemma explain_checked (self : BiasAnalyzer F T P L) (feature_column : string)
  (values : list F) (arg : groups_arg F) (labels : labels_arg L) :
  dict_get feature_column (data self) = Some values ->
  all_known values arg ->
  explain self feature_column arg labels =
  (let '(group_a, group_b) := groups (feat_value2idx values) arg in
   '(targ_a, targ_b, pred_a, pred_b, labels) <-
     _get_labels self group_a group_b labels ;;
   dpl <- _dpl targ_a targ_b pred_a pred_b labels ;;
   di <- _di targ_a targ_b pred_a pred_b labels ;;
   Ok {| stdout := [[("DPL", dpl); ("DI", di)]]; returned := None |}).
Proof.
  intros Hcol Hknown. unfold explain, dict_contains. rewrite Hcol. simpl.
  assert (Hchecks :
    (_ <- match arg with
          | ValueLists gs =>
              py_assert (Nat.eqb (length gs) 2)
                "`feature_value_or_groups` is either a single value or a list/tuple of two lists indicating two feature groups, e.g., `feature_value_or_groups = 'X'` or `feature_value_or_groups = (['X', 'Y'], ['Z'])`."
          | SingleValue _ => Ok tt
          end ;;
     match arg with
     | ValueLists gs =>
         _ <- for_each (nth 0 gs [])
                (fun _ feat => assert_known (feat_value2idx values) feat) tt ;;
         for_each (nth 1 gs [])
           (fun _ feat => assert_known (feat_value2idx values) feat) tt
     | SingleValue v => assert_known (feat_value2idx values) v
     end) = Ok tt).
  { destruct arg as [v|gs]; simpl in *.
    - apply assert_known_ok. exact Hknown.
    - destruct Hknown as (Hlen & Ha & Hb). rewrite Hlen. simpl.
      rewrite !assert_all_known by assumption. reflexivity. }
  destruct arg as [v|gs]; simpl in Hchecks |- *.
  - rewrite Hchecks. simpl.
    destruct (one_vs_rest _ v) as [group_a group_b].
    destruct (_get_labels _ _ _ _) as [[[[[ta tb] pa] pb] ls]|e]; simpl;
      [|reflexivity].
    destruct (_dpl ta tb pa pb ls); simpl; [|reflexivity].
    destruct (_di ta tb pa pb ls); reflexivity.
  - destruct (py_assert _ _) as [[]|e]; simpl in Hchecks |- *;
      [|discriminate].
    destruct (for_each (nth 0 gs []) _ tt) as [[]|e]; simpl in Hchecks |- *;
      [|discriminate].
    rewrite Hchecks. simpl.
    destruct (rows_of_values _ (nth 0 gs [])) as [group_a d1].
    destruct (rows_of_values d1 (nth 1 gs [])) as [group_b d2].
    destruct (_get_labels _ _ _ _) as [[[[[ta tb] pa] pb] ls]|e]; simpl;
      [|reflexivity].
    destruct (_dpl ta tb pa pb ls); simpl; [|reflexivity].
    destruct (_di ta tb pa pb ls); reflexivity.
Qed.

Lemma take_length {A : Type} (arr : list A) (idx : list nat) (l : list A) :
  take arr idx = Ok l -> length l = length idx.
Proof.
  revert l. induction idx as [|i idx IH]; intros l; simpl.
  - intros Hl. injection Hl as <-. reflexivity.
  - destruct (nth_error arr i); [|discriminate].
    destruct (take arr idx) as [rest|]; simpl; [|discriminate].
    intros Hl. injection Hl as <-. simpl. f_equal. auto.
Qed.

Lemma get_labels_groups (self : BiasAnalyzer F T P L)
  (group_a group_b : list nat) (arg : labels_arg L)
  (targ_a targ_b : list T) (pred_a pred_b : list P) (labels : list L) :
  _get_labels self group_a group_b arg
  = Ok (targ_a, targ_b, pred_a, pred_b, labels) ->
  length pred_a = length group_a /\ length pred_b = length group_b.
Proof.
  unfold _get_labels.
  destruct (take (targs self) group_a); simpl; [|discriminate].
  destruct (take (targs self) group_b); simpl; [|discriminate].
  destruct (take (preds self) group_a) as [pa|] eqn:Ha; simpl; [|discriminate].
  destruct (take (preds self) group_b) as [pb|] eqn:Hb; simpl; [|discriminate].
  intros Hr. injection Hr as <- <- <- <- <-.
  split; eapply take_length; eassumption.
Qed.

(** No call of [explain] returns the mapping it has computed: whenever the
    call succeeds, the mapping of "DPL" and "DI" is printed and the value
    returned is [None]. *)
Lemma explain_returns_None (self : BiasAnalyzer F T P L)
  (feature_column : string) (arg : groups_arg F) (labels : labels_arg L)
  (r : call_result result) :
  explain self feature_column arg labels = Ok r ->
  returned r = None
  /\ exists dpl di, stdout r = [[("DPL", dpl); ("DI", di)]].
Proof.
  unfold explain. intros Hr.
  repeat match type of Hr with
         | bind (for_each (_ :: _) _ _) _ = Ok _ => fail 1
         | bind ?c _ = Ok _ =>
             let x := fresh "x" in
             destruct c as [x|]; cbn [bind] in Hr; [|discriminate]
         | (let '(_, _) := ?p in _) = Ok _ => destruct p
         end.
  repeat match goal with x : (_ * _)%type |- _ => destruct x end.
  simpl in Hr. unfold getattr_BiasAnalyzer in Hr. simpl in Hr.
  destruct (_dpl _ _ _ _ _) as [dpl|]; simpl in Hr; [|discriminate].
  destruct (_di _ _ _ _ _) as [di|]; simpl in Hr; [|discriminate].
  injection Hr as <-. simpl. eauto.
Qed.

Lemma explain_empty_group (self : BiasAnalyzer F T P L)
  (feature_column : string) (values : list F) (arg : groups_arg F)
  (labels_arg0 : labels_arg L) (group_a group_b : list nat)
  (targ_a targ_b : list T) (pred_a pred_b : list P) (labels : list L) :
  dict_get feature_column (data self) = Some values ->
  all_known values arg ->
  groups (feat_value2idx values) arg = (group_a, group_b) ->
  _get_labels self group_a group_b labels_arg0
  = Ok (targ_a, targ_b, pred_a, pred_b, labels) ->
  pred_a = [] \/ pred_b = [] ->
  labels <> [] ->
  explain self feature_column arg labels_arg0 = Raise ZeroDivisionError.
Proof.
  intros Hcol Hknown Hgroups Hlabels Hempty Hne.
  rewrite (explain_checked self feature_column values arg labels_arg0 Hcol Hknown).
  rewrite Hgroups, Hlabels. simpl.
  rewrite dpl_empty_group; [reflexivity|exact Hempty|exact Hne].
Qed.

End ExplainFacts.

(** ** The model at work *)

Example feat_value2idx_example :
  feat_value2idx ["X"; "Y"; "X"; "Z"; "Y"]
  = [("X", [0; 2]); ("Y", [1; 4]); ("Z", [3])].
Proof. reflexivity. Qed.

Example groups_of_two_lists :
  groups (feat_value2idx ["X"; "Y"; "X"; "Z"; "Y"])
         (ValueLists [["Z"; "X"]; ["X"]])
  = ([3; 0; 2], [0; 2]).
Proof. reflexivity. Qed.

Example argmax_first_of_equal_scores :
  argmax [1; 3; 3; 2]%float = 1.
Proof. reflexivity. Qed.

(** The ratio of [_di] is group B over group A: label 1 is half of the
    predictions of group A and all of those of group B. *)
Example di_direction :
  _di ([] : list Z) [] [0; 1]%Z [1; 1]%Z [1%Z]
  = Ok [(1%Z, (1 / (0.5 + eps))%float)].
Proof. vm_compute. reflexivity. Qed.

Example explain_unknown_column :
  explain scenario "age" (SingleValue "X") NoLabels
  = Raise (AssertionError "Feature column age does not exist.").
Proof. reflexivity. Qed.

Example init_with_targets :
  option_map (fun a => (preds a, all_labels a))
    (match __init__ (rt := reference_runtime) labelled_data
             (Some constant_predict) "classification"
             (Some [VInt 1; VInt 0; VInt 0; VInt 1]) None with
     | Ok a => Some a
     | Raise _ => None
     end)
  = Some ([VInt 0; VInt 0; VInt 0; VInt 0], [VInt 0; VInt 1]).
Proof. vm_compute. reflexivity. Qed.

(** The reference runtime on targets that are not plain 64-bit integers: an
    integer from 2^63 on wraps around, an integer beside a float becomes a
    float, numeric text is read as Python's [int] reads it, and a set comes
    out in increasing order. *)
Example reference_runtime_at_work :
  reference_astype_int [VInt (2 ^ 63)] = Ok [(- 2 ^ 63)%Z]
  /\ reference_np_array [VInt 1; VFloat 0.5] = [VFloat 1; VFloat 0.5]
  /\ reference_astype_int [VStr "12"; VStr " -3 "] = Ok [12; -3]%Z
  /\ reference_astype_int [VStr "1.0"] = Raise ValueError
  /\ sorted_set [1; 0; 1]%Z = [0; 1]%Z.
Proof. repeat split; vm_compute; reflexivity. Qed.

Example scenario_predictions :
  _predict "classification" scenario_predict scenario_data 64
  = Ok [VInt 0; VInt 1; VInt 0; VInt 1].
Proof. vm_compute. reflexivity. Qed.

(** C1, on the scenario of the specification: [explain] computes the
    mapping of "DPL" and "DI" (DPL 0 and DI 0.5 / (0.5 + 1e-8) for both
    labels), prints it, and returns [None] to its caller. *)
Theorem explain_scenario_returns_None :
  explain scenario "feat" (SingleValue "X") NoLabels
  = Ok {| stdout :=
            [[("DPL", [(0%Z, 0%float); (1%Z, 0%float)]);
              ("DI", [(0%Z, (0.5 / (0.5 + eps))%float);
                      (1%Z, (0.5 / (0.5 + eps))%float)])]];
          returned := None |}.
Proof. vm_compute. reflexivity. Qed.

(** C3: without [training_targets] the constructor never succeeds.  A data
    set without a target column fails the first assertion; a data set with
    a target column, integers included, ends in the [ValueError] of the
    membership test on the column, and its targets are never extracted. *)
Theorem init_without_targets_never_succeeds (rt : Runtime) :
  (forall training_data predict_function mode batch_size,
      exists e,
        __init__ training_data predict_function mode None batch_size
        = Raise e)
  /\ __init__ labelled_data (Some constant_predict) "classification" None None
     = Raise ValueError
  /\ __init__ unlabelled_data (Some constant_predict) "classification" None None
     = Raise (AssertionError
                "`training_data` has no label/target column. Please set `training_targets`").
Proof.
  split; [|split; reflexivity].
  intros training_data predict_function mode batch_size. unfold __init__.
  destruct (py_assert _ _) as [[]|e]; simpl; [|eauto].
  destruct predict_function as [f|]; simpl; [|eauto].
  destruct (py_assert (truthy _) _) as [[]|e]; simpl; [|eauto].
  destruct (df_getitem _ _) as [series|e]; simpl; eauto.
Qed.

Example batch_dependent_predictions :
  _predict "classification" batch_dependent_predict scenario_data 1
  = Ok [VInt 0; VInt 0; VInt 0; VInt 0]
  /\ _predict "classification" batch_dependent_predict scenario_data 64
     = Ok [VInt 1; VInt 1; VInt 1; VInt 1].
Proof. split; vm_compute; reflexivity. Qed.

(** C7, the claim tested on the code: a deterministic prediction function
    that looks at the size of its batch gives other predictions with
    batches of one row than with batches of 64 rows. *)
Lemma predict_batch_size_counterexample :
  _predict "classification" batch_dependent_predict scenario_data 1
  <> _predict "classification" batch_dependent_predict scenario_data 64.
Proof. vm_compute. discriminate. Qed.

Lemma predict_invariant_witness :
  _predict "classification" scenario_predict scenario_data 1
  = _predict "classification" scenario_predict scenario_data 64.
Proof.
  apply (predict_invariant_to_batch_size scenario_predict scenario_data
           "classification" 2
           (fun row => match nth_error row 1 with
                       | Some "1" => [0; 1]
                       | _ => [1; 0]
                       end%float)).
  intros i j. reflexivity.
Defined.

Lemma explain_unknown_feature_value_witness :
  explain scenario "feat" (SingleValue "Z") NoLabels
  = Raise (AssertionError "Feature Z does not exist.")
  /\ exists v,
       In v (["X"] ++ ["Q"; "Y"]) /\ ~ In v ["X"; "X"; "Y"; "Y"]
       /\ explain scenario "feat" (ValueLists [["X"]; ["Q"; "Y"]]) NoLabels
          = Raise (UnknownFeatureValue v).
Proof.
  destruct (explain_unknown_feature_value scenario "feat"
              ["X"; "X"; "Y"; "Y"] NoLabels eq_refl) as [Hsingle Hlists].
  split.
  - apply (Hsingle "Z"). simpl. intros [E|[E|[E|[E|[]]]]]; discriminate.
  - apply (Hlists ["X"] ["Q"; "Y"]). exists "Q". split.
    + simpl. tauto.
    + simpl. intros [E|[E|[E|[E|[]]]]]; discriminate.
Defined.

Lemma constant_classifier_scores_witness :
  exists dpl di,
    _dpl [0; 1]%Z [1]%Z [1; 1]%Z [1]%Z [0; 1]%Z = Ok dpl
    /\ dict_get 1%Z dpl = Some 0%float
    /\ _di [0; 1]%Z [1]%Z [1; 1]%Z [1]%Z [0; 1]%Z = Ok di
    /\ dict_get 1%Z di = Some (1 / (1 + eps))%float
    /\ (abs (1 - 1 / (1 + eps)) <=? eps)%float = true.
Proof.
  apply (constant_classifier_scores [0; 1]%Z [1]%Z [1; 1]%Z [1]%Z [0; 1]%Z 1%Z).
  - discriminate.
  - discriminate.
  - simpl. lia.
  - simpl. lia.
  - simpl. intros p [E|[E|[E|[]]]]; subst p; reflexivity.
  - simpl. tauto.
Defined.

(* ================================================================= *)
(** * Further properties of the analyzer *)

(** ** The index of feature values, entry by entry *)

Section IndexFacts.
Context {F : Type} `{PyKey F}.

Abbreviation index_step' :=
  (fun (d : dict F (list nat)) '(i, feat) => defaultdict_append feat i d).

Lemma positions_from_In (v : F) (values : list F) :
  forall s i,
    In i (positions_from s v values) <->
    s <= i /\ nth_error values (i - s) = Some v.
Proof.
  induction values as [|w values IH]; intros s i; simpl.
  - split; [tauto|]. intros [_ Hn]. destruct (i - s); discriminate.
  - destruct (key_eq_dec w v) as [E|E]; simpl; rewrite ?IH.
    + subst w. split.
      * intros [<-|[Hle Hn]].
        -- split; [lia|]. rewrite Nat.sub_diag. reflexivity.
        -- split; [lia|]. replace (i - s) with (S (i - S s)) by lia. exact Hn.
      * intros [Hle Hn]. destruct (Nat.eq_dec s i) as [->|Hne]; [tauto|].
        right. split; [lia|].
        replace (i - s) with (S (i - S s)) in Hn by lia. exact Hn.
    + split.
      * intros [Hle Hn]. split; [lia|].
        replace (i - s) with (S (i - S s)) by lia. exact Hn.
      * intros [Hle Hn]. destruct (Nat.eq_dec s i) as [->|Hne].
        -- rewrite Nat.sub_diag in Hn. simpl in Hn. congruence.
        -- split; [lia|].
           replace (i - s) with (S (i - S s)) in Hn by lia. exact Hn.
Qed.

Lemma positions_from_sorted (v : F) (values : list F) :
  forall s, StronglySorted lt (positions_from s v values).
Proof.
  induction values as [|w values IH]; intros s; simpl; [constructor|].
  destruct (key_eq_dec w v); [|apply IH].
  constructor; [apply IH|].
  apply Forall_forall. intros i Hi. apply positions_from_In in Hi. lia.
Qed.

Lemma positions_from_nil (v : F) (values : list F) (s : nat) :
  positions_from s v values = [] <-> ~ In v values.
Proof.
  revert s. induction values as [|w values IH]; intros s; simpl; [tauto|].
  destruct (key_eq_dec w v) as [E|E].
  - split; [discriminate|]. intros Hn. exfalso. apply Hn. left. exact E.
  - rewrite IH. tauto.
Qed.

Lemma append_get (k v : F) (i : nat) (d : dict F (list nat)) :
  dict_get v (defaultdict_append k i d) =
  if key_eq_dec k v then Some (lookup_default d v ++ [i]) else dict_get v d.
Proof.
  rewrite defaultdict_append_eq. unfold lookup_default.
  destruct (key_eq_dec k v) as [E|E].
  - subst k. rewrite dict_get_set_same. destruct (dict_get v d); reflexivity.
  - apply dict_get_set_other. congruence.
Qed.

Lemma append_lookup (k v : F) (i : nat) (d : dict F (list nat)) :
  lookup_default (defaultdict_append k i d) v =
  if key_eq_dec k v then lookup_default d v ++ [i] else lookup_default d v.
Proof.
  unfold lookup_default at 1. rewrite append_get.
  destruct (key_eq_dec k v); reflexivity.
Qed.

Lemma index_loop_get (v : F) (values : list F) :
  forall (s : nat) (d0 : dict F (list nat)),
    dict_get v (fold_left index_step' (combine (seq s (length values)) values) d0)
    = match positions_from s v values with
      | [] => dict_get v d0
      | ps => Some (lookup_default d0 v ++ ps)
      end.
Proof.
  induction values as [|w values IH]; intros s d0; simpl; [reflexivity|].
  rewrite IH, append_get, append_lookup.
  destruct (key_eq_dec w v) as [E|E].
  - destruct (positions_from (S s) v values); [reflexivity|].
    rewrite <- app_assoc. reflexivity.
  - reflexivity.
Qed.

Lemma append_keys (k : F) (i : nat) (d : dict F (list nat)) :
  map fst (defaultdict_append k i d) =
  if in_dec key_eq_dec k (map fst d) then map fst d else map fst d ++ [k].
Proof.
  rewrite defaultdict_append_eq.
  destruct (dict_get k d) as [l|] eqn:Hg.
  - erewrite dict_set_keys_present by eassumption.
    destruct (in_dec key_eq_dec k (map fst d)) as [_|Hn]; [reflexivity|].
    apply dict_get_None in Hn. congruence.
  - rewrite dict_set_keys_absent by assumption. rewrite map_app. simpl.
    destruct (in_dec key_eq_dec k (map fst d)) as [Hin|_]; [|reflexivity].
    apply dict_get_None in Hg. contradiction.
Qed.

Lemma index_loop_keys (values : list F) :
  forall (s : nat) (d0 : dict F (list nat)),
    map fst (fold_left index_step' (combine (seq s (length values)) values) d0)
    = first_seen_from (map fst d0) values.
Proof.
  induction values as [|w values IH]; intros s d0; simpl; [reflexivity|].
  rewrite IH, append_keys. reflexivity.
Qed.

Lemma feat_value2idx_get (values : list F) (v : F) :
  dict_get v (feat_value2idx values) =
  match positions v values with
  | [] => None
  | ps => Some ps
  end.
Proof. apply (index_loop_get v values 0 []). Qed.

Lemma feat_value2idx_lookup (values : list F) (v : F) :
  lookup_default (feat_value2idx values) v = positions v values.
Proof.
  unfold lookup_default. rewrite feat_value2idx_get.
  destruct (positions v values); reflexivity.
Qed.

Lemma first_seen_from_spec (values : list F) :
  forall seen,
    NoDup seen ->
    NoDup (first_seen_from seen values)
    /\ (forall v, In v (first_seen_from seen values) <-> In v seen \/ In v values).
Proof.
  induction values as [|w values IH]; intros seen Hnd; simpl.
  - split; [exact Hnd|]. intros v. tauto.
  - destruct (in_dec key_eq_dec w seen) as [Hin|Hn].
    + destruct (IH seen Hnd) as [Hnd' Hmem]. split; [exact Hnd'|].
      intros v. rewrite Hmem. split; [tauto|].
      intros [Hv|[->|Hv]]; tauto.
    + assert (Hnd1 : NoDup (seen ++ [w])).
      { apply NoDup_app; [exact Hnd|repeat constructor; simpl; tauto|].
        intros x Hx [<-|[]]. contradiction. }
      destruct (IH (seen ++ [w]) Hnd1) as [Hnd' Hmem]. split; [exact Hnd'|].
      intros v. rewrite Hmem, in_app_iff. simpl. tauto.
Qed.

(** X1: the dictionary that [explain] builds over a column has one key per
    distinct value, in the order of first appearance, bound to the rows that
    hold the value, in increasing order; a value that the column does not
    hold is not a key. *)
Theorem feat_value2idx_characterised (values : list F) :
  map fst (feat_value2idx values) = first_seen values
  /\ NoDup (first_seen values)
  /\ (forall v, In v (first_seen values) <-> In v values)
  /\ (forall v, In v values ->
        dict_get v (feat_value2idx values) = Some (positions v values))
  /\ (forall v, ~ In v values ->
        dict_get v (feat_value2idx values) = None)
  /\ (forall v, StronglySorted lt (positions v values))
  /\ (forall v i, In i (positions v values) <-> nth_error values i = Some v).
Proof.
  split; [apply (index_loop_keys values 0 [])|].
  destruct (first_seen_from_spec values [] (NoDup_nil F)) as [Hnd Hmem].
  split; [exact Hnd|]. split; [intros v; rewrite (Hmem v); simpl; tauto|].
  split; [|split; [|split]].
  - intros v Hv. rewrite feat_value2idx_get.
    destruct (positions v values) eqn:Hp; [|reflexivity].
    apply positions_from_nil in Hp. contradiction.
  - intros v Hv. rewrite feat_value2idx_get.
    apply (positions_from_nil v values 0) in Hv. unfold positions. rewrite Hv.
    reflexivity.
  - intros v. apply positions_from_sorted.
  - intros v i. unfold positions. rewrite positions_from_In, Nat.sub_0_r.
    split; [tauto|]. intros Hn. split; [lia|exact Hn].
Qed.

End IndexFacts.

(** ** The two groups of the list form *)

Section TwoLists.
Context {F : Type} `{PyKey F}.

Lemma getitem_lookup {A : Type} (k : F) (d d' : dict F (list A)) (l : list A) :
  defaultdict_getitem k d = (l, d') ->
  l = lookup_default d k
  /\ (forall v, lookup_default d' v = lookup_default d v).
Proof.
  unfold defaultdict_getitem, lookup_default.
  destruct (dict_get k d) as [l0|] eqn:Hg; intros Hp; injection Hp as <- <-.
  - split; [reflexivity|]. intros v. reflexivity.
  - split; [reflexivity|]. intros v.
    destruct (key_eq_dec v k) as [->|Hne].
    + rewrite dict_get_set_same, Hg. reflexivity.
    + rewrite dict_get_set_other by exact Hne. reflexivity.
Qed.

Lemma rows_of_values_loop (feats : list F) :
  forall (d : dict F (list nat)) (g0 : list nat),
    exists d',
      fold_left
        (fun '(group, d) feat =>
           let '(indices, d') := defaultdict_getitem feat d in
           (group ++ indices, d'))
        feats (g0, d)
      = (g0 ++ flat_map (lookup_default d) feats, d')
      /\ (forall v, lookup_default d' v = lookup_default d v).
Proof.
  induction feats as [|feat feats IH]; intros d g0; simpl.
  - exists d. rewrite app_nil_r. split; [reflexivity|]. intros v. reflexivity.
  - destruct (defaultdict_getitem feat d) as [indices d1] eqn:Hget.
    destruct (getitem_lookup _ _ _ _ Hget) as [-> Hsame].
    destruct (IH d1 (g0 ++ lookup_default d feat)) as (d' & -> & Hsame').
    exists d'. split.
    + rewrite <- app_assoc. f_equal. f_equal. f_equal.
      apply flat_map_ext. exact Hsame.
    + intros v. rewrite Hsame'. apply Hsame.
Qed.

Lemma rows_of_values_spec (d : dict F (list nat)) (feats : list F) :
  exists d',
    rows_of_values d feats = (flat_map (lookup_default d) feats, d')
    /\ (forall v, lookup_default d' v = lookup_default d v).
Proof. apply (rows_of_values_loop feats d []). Qed.

Lemma groups_of_lists (values : list F) (gs : list (list F)) :
  groups (feat_value2idx values) (ValueLists gs)
  = (flat_map (fun v => positions v values) (nth 0 gs []),
     flat_map (fun v => positions v values) (nth 1 gs [])).
Proof.
  simpl.
  destruct (rows_of_values_spec (feat_value2idx values) (nth 0 gs []))
    as (d1 & -> & Hsame1).
  destruct (rows_of_values_spec d1 (nth 1 gs [])) as (d2 & -> & _).
  f_equal; apply flat_map_ext; intros v.
  - apply feat_value2idx_lookup.
  - rewrite Hsame1. apply feat_value2idx_lookup.
Qed.

Lemma positions_In (values : list F) (v : F) (i : nat) :
  In i (positions v values) <-> nth_error values i = Some v.
Proof.
  unfold positions. rewrite positions_from_In, Nat.sub_0_r.
  split; [tauto|]. intros Hn. split; [lia|exact Hn].
Qed.

Lemma rows_of_list_In (values feats : list F) (i : nat) :
  In i (flat_map (fun v => positions v values) feats) <->
  exists v, In v feats /\ nth_error values i = Some v.
Proof.
  rewrite in_flat_map. split; intros (v & Hv & Hi); exists v;
    (split; [exact Hv|]); apply positions_In; exact Hi.
Qed.

(** X2: in the two-lists form group A is, value by value in the order of
    the first list, the rows that hold the value (a value listed twice
    brings its rows twice, a value the column does not hold brings none),
    and group B likewise for the second list.  So a row is in a group
    exactly when its value is in the list, lists without a common value
    give groups without a common row, and a value of the column that is in
    both lists puts its rows into both groups. *)
Theorem two_lists_groups (values group_a_values group_b_values : list F) :
  exists group_a group_b,
    groups (feat_value2idx values)
           (ValueLists [group_a_values; group_b_values])
    = (group_a, group_b)
    /\ group_a = flat_map (fun v => positions v values) group_a_values
    /\ group_b = flat_map (fun v => positions v values) group_b_values
    /\ (forall i, In i group_a <->
                  exists v, In v group_a_values /\ nth_error values i = Some v)
    /\ (forall i, In i group_b <->
                  exists v, In v group_b_values /\ nth_error values i = Some v)
    /\ ((forall v, ~ (In v group_a_values /\ In v group_b_values)) ->
        forall i, ~ (In i group_a /\ In i group_b))
    /\ (forall v i, In v group_a_values -> In v group_b_values ->
                    nth_error values i = Some v ->
                    In i group_a /\ In i group_b).
Proof.
  eexists _, _. split; [apply groups_of_lists|]. simpl.
  split; [reflexivity|]. split; [reflexivity|].
  split; [intros i; apply rows_of_list_In|].
  split; [intros i; apply rows_of_list_In|]. split.
  - intros Hdisj i [Ha Hb].
    apply rows_of_list_In in Ha. apply rows_of_list_In in Hb.
    destruct Ha as (v & Hv & Hi). destruct Hb as (w & Hw & Hi').
    assert (v = w) by congruence. subst w. exact (Hdisj v (conj Hv Hw)).
  - intros v i Ha Hb Hi. split; apply rows_of_list_In; exists v; tauto.
Qed.

End TwoLists.

(** ** Selecting targets and predictions *)

Section Selection.
Context {A : Type}.

Lemma take_selects (arr : list A) (idx : list nat) (l : list A) :
  take arr idx = Ok l -> selects arr idx l.
Proof.
  revert l. induction idx as [|i idx IH]; intros l; simpl.
  - intros Hl. injection Hl as <-. constructor.
  - destruct (nth_error arr i) as [x|] eqn:Hx; [|discriminate].
    destruct (take arr idx) as [rest|]; simpl; [|discriminate].
    intros Hl. injection Hl as <-. constructor; [exact Hx|]. apply IH.
    reflexivity.
Qed.

Lemma take_in_range (arr : list A) (idx : list nat) :
  Forall (fun i => i < length arr) idx ->
  exists l, take arr idx = Ok l.
Proof.
  induction 1 as [|i idx Hi _ [rest IH]]; simpl.
  - exists []. reflexivity.
  - apply nth_error_Some in Hi.
    destruct (nth_error arr i) as [x|]; [|congruence].
    rewrite IH. simpl. eauto.
Qed.

Lemma take_raises (arr : list A) (idx : list nat) (e : exception) :
  take arr idx = Raise e -> e = IndexError.
Proof.
  induction idx as [|i idx IH]; simpl; [discriminate|].
  destruct (nth_error arr i); [|congruence].
  destruct (take arr idx) as [rest|e']; simpl; [discriminate|].
  intros He. injection He as <-. apply IH. reflexivity.
Qed.

Lemma take_out_of_range (arr : list A) (idx : list nat) :
  (exists i, In i idx /\ length arr <= i) ->
  take arr idx = Raise IndexError.
Proof.
  intros (i & Hi & Hle).
  destruct (take arr idx) as [l|e] eqn:Ht.
  - exfalso. apply take_selects in Ht. clear - Ht Hi Hle.
    induction Ht as [|j x idx l Hx _ IH]; [destruct Hi|].
    destruct Hi as [->|Hi]; [|auto].
    apply nth_error_None in Hle. congruence.
  - f_equal. eapply take_raises. eassumption.
Qed.

End Selection.

Section GetLabels.
Context {F T P L : Type}.

Lemma get_labels_in_range (self : BiasAnalyzer F T P L)
  (group_a group_b : list nat) (arg : labels_arg L) :
  Forall (fun i => i < length (targs self) /\ i < length (preds self))
         (group_a ++ group_b) ->
  exists targ_a targ_b pred_a pred_b,
    _get_labels self group_a group_b arg
    = Ok (targ_a, targ_b, pred_a, pred_b, resolved_labels self arg)
    /\ selects (targs self) group_a targ_a
    /\ selects (targs self) group_b targ_b
    /\ selects (preds self) group_a pred_a
    /\ selects (preds self) group_b pred_b.
Proof.
  intros Hall. apply Forall_app in Hall. destruct Hall as [Ha Hb].
  assert (Hsplit : forall g,
    Forall (fun i => i < length (targs self) /\ i < length (preds self)) g ->
    Forall (fun i => i < length (targs self)) g
    /\ Forall (fun i => i < length (preds self)) g).
  { intros g Hg. split; eapply Forall_impl; try exact Hg; simpl; tauto. }
  destruct (Hsplit _ Ha) as [Hta Hpa]. destruct (Hsplit _ Hb) as [Htb Hpb].
  destruct (take_in_range _ _ Hta) as [ta Eta].
  destruct (take_in_range _ _ Htb) as [tb Etb].
  destruct (take_in_range _ _ Hpa) as [pa Epa].
  destruct (take_in_range _ _ Hpb) as [pb Epb].
  exists ta, tb, pa, pb. unfold _get_labels.
  rewrite Eta, Etb, Epa, Epb. simpl.
  split; [destruct arg; reflexivity|].
  repeat split; apply take_selects; assumption.
Qed.

Lemma get_labels_out_of_range (self : BiasAnalyzer F T P L)
  (group_a group_b : list nat) (arg : labels_arg L) :
  (exists i, In i (group_a ++ group_b)
             /\ (length (targs self) <= i \/ length (preds self) <= i)) ->
  _get_labels self group_a group_b arg = Raise IndexError.
Proof.
  intros (i & Hi & Hout). unfold _get_labels.
  assert (Hexc : forall (A : Type) (arr : list A) idx,
            (exists l, take arr idx = Ok l)
            \/ take arr idx = Raise IndexError).
  { intros A arr idx. destruct (take arr idx) as [l|e] eqn:Ht; [eauto|].
    right. f_equal. eapply take_raises. eassumption. }
  destruct (Hexc _ (targs self) group_a) as [[ta Eta]|Eta];
    rewrite Eta; [|reflexivity].
  destruct (Hexc _ (targs self) group_b) as [[tb Etb]|Etb];
    rewrite Etb; [|reflexivity].
  destruct (Hexc _ (preds self) group_a) as [[pa Epa]|Epa];
    rewrite Epa; [|reflexivity].
  destruct (Hexc _ (preds self) group_b) as [[pb Epb]|Epb];
    rewrite Epb; [|reflexivity].
  exfalso. apply in_app_or in Hi.
  assert (Hno : forall (A : Type) (arr : list A) idx l,
            take arr idx = Ok l -> In i idx -> length arr <= i -> False).
  { intros A arr idx l Ht Hin Hle.
    rewrite (take_out_of_range arr idx) in Ht; [discriminate|eauto]. }
  destruct Hi as [Hi|Hi], Hout as [Hle|Hle]; eauto.
Qed.

(** X3: [_get_labels] gives the targets and the predictions of the two
    groups, position by position, and the labels to score ([all_labels]
    when none is asked for, a single label as a list of one); it succeeds
    when every position of the groups lies inside both arrays and ends in
    an [IndexError] when one does not. *)
Theorem get_labels_selects (self : BiasAnalyzer F T P L)
  (group_a group_b : list nat) (arg : labels_arg L) :
  (Forall (fun i => i < length (targs self) /\ i < length (preds self))
          (group_a ++ group_b) ->
   exists targ_a targ_b pred_a pred_b,
     _get_labels self group_a group_b arg
     = Ok (targ_a, targ_b, pred_a, pred_b, resolved_labels self arg)
     /\ selects (targs self) group_a targ_a
     /\ selects (targs self) group_b targ_b
     /\ selects (preds self) group_a pred_a
     /\ selects (preds self) group_b pred_b)
  /\ ((exists i, In i (group_a ++ group_b)
                 /\ (length (targs self) <= i \/ length (preds self) <= i)) ->
      _get_labels self group_a group_b arg = Raise IndexError).
Proof.
  split; [apply get_labels_in_range|apply get_labels_out_of_range].
Qed.

End GetLabels.

(** ** The rows of a group and their predictions *)

Section RowPredictions.
Context {F P L : Type} `{PyKey F} `{PyEq P L}.

Lemma selects_functional {A : Type} (arr : list A) (idx : list nat)
  (l l' : list A) :
  selects arr idx l -> selects arr idx l' -> l = l'.
Proof.
  intros Hl. revert l'.
  induction Hl as [|i x idx l Hx _ IH]; intros l' Hl';
    inversion Hl' as [|? y ? l0 Hy Hrest]; subst; [reflexivity|].
  f_equal; [congruence|apply IH; exact Hrest].
Qed.

Lemma selects_app {A : Type} (arr : list A) (i1 i2 : list nat)
  (l1 l2 : list A) :
  selects arr i1 l1 -> selects arr i2 l2 -> selects arr (i1 ++ i2) (l1 ++ l2).
Proof. apply Forall2_app. Qed.

Lemma selects_positions_from (v : F) (values : list F) :
  forall (preds pre : list P) (s : nat),
    length pre = s -> length values <= length preds ->
    selects (pre ++ preds) (positions_from s v values)
            (predictions_where (is_value v) values preds).
Proof.
  induction values as [|w values IH]; intros preds pre s Hs Hlen; simpl;
    [constructor|].
  destruct preds as [|p preds]; [simpl in Hlen; lia|]. simpl in Hlen.
  assert (IH' := IH preds (pre ++ [p]) (S s)
                    ltac:(rewrite length_app; simpl; lia) ltac:(lia)).
  rewrite <- app_assoc in IH'. simpl in IH'.
  unfold is_value at 1. destruct (key_eq_dec w v).
  - constructor; [|exact IH'].
    rewrite nth_error_app2 by lia. rewrite <- Hs, Nat.sub_diag. reflexivity.
  - exact IH'.
Qed.

Lemma selects_positions (v : F) (values : list F) (preds : list P) :
  length values <= length preds ->
  selects preds (positions v values)
          (predictions_where (is_value v) values preds).
Proof.
  intros Hlen.
  apply (selects_positions_from v values preds [] 0); [reflexivity|exact Hlen].
Qed.

Lemma selects_rows_of_list (values : list F) (preds : list P)
  (feats : list F) :
  length values <= length preds ->
  selects preds (flat_map (fun v => positions v values) feats)
          (flat_map (fun v => predictions_where (is_value v) values preds)
                    feats).
Proof.
  intros Hlen. induction feats as [|v feats IH]; simpl; [constructor|].
  apply selects_app; [apply selects_positions; exact Hlen|exact IH].
Qed.

Lemma selects_seq (preds : list P) :
  forall (pre : list P) (n : nat),
    n <= length preds ->
    selects (pre ++ preds) (seq (length pre) n) (firstn n preds).
Proof.
  induction preds as [|p preds IH]; intros pre n Hn.
  - simpl in Hn. replace n with 0 by lia. constructor.
  - destruct n as [|n]; [constructor|]. simpl. constructor.
    + rewrite nth_error_app2, Nat.sub_diag by lia. reflexivity.
    + specialize (IH (pre ++ [p]) n ltac:(simpl in Hn; lia)).
      rewrite length_app, <- app_assoc in IH. simpl in IH.
      replace (length pre + 1) with (S (length pre)) in IH by lia. exact IH.
Qed.

Lemma predictions_partition (keep : F -> bool) (values : list F) :
  forall preds : list P,
    length values <= length preds ->
    Permutation (firstn (length values) preds)
                (predictions_where keep values preds
                 ++ predictions_where (fun x => negb (keep x)) values preds).
Proof.
  induction values as [|w values IH]; intros preds Hlen; simpl;
    [constructor|].
  destruct preds as [|p preds]; [simpl in Hlen; lia|]. simpl in Hlen |- *.
  specialize (IH preds ltac:(lia)).
  destruct (keep w); simpl.
  - constructor. exact IH.
  - apply Permutation_cons_app. exact IH.
Qed.

Lemma predictions_where_length (keep : F -> bool) (values : list F) :
  forall preds : list P,
    length (predictions_where keep values preds) <= length values.
Proof.
  induction values as [|w values IH]; intros [|p preds]; simpl; try lia.
  specialize (IH preds). destruct (keep w); simpl; lia.
Qed.

Lemma spec_count_perm (l1 l2 : list P) (x : L) :
  Permutation l1 l2 -> spec_count l1 x = spec_count l2 x.
Proof. induction 1; simpl; lia. Qed.

Lemma spec_proportion_perm (l1 l2 : list P) (x : L) :
  Permutation l1 l2 -> spec_proportion l1 x = spec_proportion l2 x.
Proof.
  intros Hp. unfold spec_proportion.
  rewrite (spec_count_perm _ _ x Hp), (Permutation_length Hp). reflexivity.
Qed.

End RowPredictions.

(** ** [explain], end to end *)

Section ExplainEndToEnd.
Context {F T P L : Type} `{PyKey F} `{PyStr F} `{PyEq P L} `{PyKey L}.

Lemma one_vs_rest_facts (values : list F) (v : F) :
  In v values ->
  exists group_b,
    groups (feat_value2idx values) (SingleValue v)
    = (positions v values, group_b)
    /\ Permutation (positions v values ++ group_b) (seq 0 (length values))
    /\ (forall i, In i group_b <->
                  exists w, nth_error values i = Some w /\ w <> v).
Proof.
  intros Hv. simpl. unfold one_vs_rest, defaultdict_getitem.
  assert (Hget : dict_get v (feat_value2idx values) = Some (positions v values)).
  { rewrite feat_value2idx_get. destruct (positions v values) eqn:Hp;
      [|reflexivity]. apply positions_from_nil in Hp. contradiction. }
  rewrite Hget. unfold dict_items. rewrite rest_loop. simpl.
  eexists. split; [reflexivity|].
  set (gb := flat_map _ _).
  assert (Hperm : Permutation (positions v values ++ gb)
                              (seq 0 (length values))).
  { rewrite <- feat_value2idx_perm.
    apply one_vs_rest_perm; [apply feat_value2idx_NoDup|exact Hget]. }
  split; [exact Hperm|].
  intros i. split.
  - intros Hi. apply rest_In in Hi. destruct Hi as (k & l & Hin & Hne & Hi).
    exists k. split; [|exact Hne].
    apply (feat_value2idx_In values k l i); assumption.
  - intros (w & Hw & Hne).
    assert (Hlt : (i < length values)%nat)
      by (apply nth_error_Some; congruence).
    assert (Hin : In i (positions v values ++ gb)).
    { apply (Permutation_in _ (Permutation_sym Hperm)). apply in_seq. lia. }
    apply in_app_or in Hin. destruct Hin as [Hin|Hin]; [|exact Hin].
    apply positions_In in Hin. congruence.
Qed.

Lemma selects_length {A : Type} (arr : list A) (idx : list nat) (l : list A) :
  selects arr idx l -> length l = length idx.
Proof. intros Hs. symmetry. exact (Forall2_length Hs). Qed.

(** X4: [explain] first checks the column and then the shape of the list
    form: a column the data does not have ends the call in the assertion
    error that names it, whatever the other arguments are; on a column of
    the data, a list or tuple that does not hold exactly two lists ends it
    in the assertion error on the shape, whatever the lists hold. *)
Theorem explain_checks_column_then_shape (self : BiasAnalyzer F T P L)
  (feature_column : string) (labels : labels_arg L) :
  (dict_get feature_column (data self) = None ->
   forall arg,
     explain self feature_column arg labels
     = Raise (AssertionError
                ("Feature column " ++ feature_column ++ " does not exist.")%string))
  /\ (forall values gs,
        dict_get feature_column (data self) = Some values ->
        length gs <> 2 ->
        explain self feature_column (ValueLists gs) labels
        = Raise (AssertionError
                   "`feature_value_or_groups` is either a single value or a list/tuple of two lists indicating two feature groups, e.g., `feature_value_or_groups = 'X'` or `feature_value_or_groups = (['X', 'Y'], ['Z'])`.")).
Proof.
  split.
  - intros Hcol arg. unfold explain, dict_contains. rewrite Hcol. reflexivity.
  - intros values gs Hcol Hlen. unfold explain, dict_contains. rewrite Hcol.
    simpl. destruct (Nat.eqb_spec (length gs) 2); [contradiction|reflexivity].
Qed.

(** X5: the constructor does not compare the number of targets with the
    number of rows; when the analyzer holds fewer targets or fewer
    predictions than the column has rows, every one-value-against-the-rest
    call on a value of the column ends in an [IndexError]. *)
Theorem explain_short_arrays_IndexError (self : BiasAnalyzer F T P L)
  (feature_column : string) (values : list F) (v : F)
  (labels : labels_arg L) :
  dict_get feature_column (data self) = Some values ->
  In v values ->
  (length (targs self) < length values
   \/ length (preds self) < length values)%nat ->
  explain self feature_column (SingleValue v) labels = Raise IndexError.
Proof.
  intros Hcol Hv Hshort.
  rewrite (explain_checked self feature_column values (SingleValue v) labels
             Hcol Hv).
  destruct (one_vs_rest_facts values v Hv) as (gb & -> & Hperm & _).
  rewrite get_labels_out_of_range; [reflexivity|].
  assert (Hcover : forall i, (i < length values)%nat ->
                             In i (positions v values ++ gb)).
  { intros i Hi. apply (Permutation_in _ (Permutation_sym Hperm)).
    apply in_seq. lia. }
  destruct Hshort as [Hs|Hs].
  - exists (length (targs self)). split; [apply Hcover; exact Hs|left; lia].
  - exists (length (preds self)). split; [apply Hcover; exact Hs|right; lia].
Qed.

(** X6: on an analyzer with a target and a prediction for every row, a
    one-value-against-the-rest call on a value of a column that also holds
    another value succeeds: it prints one mapping, "DPL" then "DI", returns
    [None], and the scores of every label are [qa - qb] and
    [qb / (qa + 1e-8)], where [qa] is the specification's proportion of the
    label among the predictions of the rows that hold the value and [qb]
    the one among the predictions of the rows that hold another value. *)
Theorem explain_one_vs_rest_succeeds (self : BiasAnalyzer F T P L)
  (feature_column : string) (values : list F) (v w : F)
  (labels : labels_arg L) :
  dict_get feature_column (data self) = Some values ->
  In v values -> In w values -> w <> v ->
  (length values <= length (targs self))%nat ->
  (length values <= length (preds self))%nat ->
  (Z.of_nat (length values) < 2 ^ 63)%Z ->
  exists dpl di,
    explain self feature_column (SingleValue v) labels
    = Ok {| stdout := [[("DPL", dpl); ("DI", di)]]; returned := None |}
    /\ (forall l, In l (resolved_labels self labels) ->
          let qa :=
            spec_proportion
              (predictions_where (is_value v) values (preds self)) l in
          let qb :=
            spec_proportion
              (predictions_where (fun x => negb (is_value v x)) values
                                 (preds self)) l in
          dict_get l dpl = Some (qa - qb)%float
          /\ dict_get l di = Some (qb / (qa + eps))%float).
Proof.
  intros Hcol Hv Hw Hne Hlt Hlp Hsize.
  destruct (one_vs_rest_facts values v Hv) as (gb & Hgroups & Hperm & Hgb).
  assert (Hrange : Forall (fun i => i < length (targs self)
                                    /\ i < length (preds self))%nat
                          (positions v values ++ gb)).
  { apply Forall_forall. intros i Hi.
    apply (Permutation_in _ Hperm) in Hi. apply in_seq in Hi. lia. }
  destruct (get_labels_in_range self _ _ labels Hrange)
    as (ta & tb & pa & pb & Hlabels & _ & _ & Hpa & Hpb).
  assert (Hpa_ne : pa <> []).
  { intros ->. apply selects_length in Hpa. simpl in Hpa.
    destruct (positions v values) eqn:Hp; [|discriminate].
    apply positions_from_nil in Hp. contradiction. }
  assert (Hpb_ne : pb <> []).
  { intros ->. apply selects_length in Hpb. simpl in Hpb.
    destruct (In_nth_error _ _ Hw) as [i Hi].
    assert (Hin : In i gb) by (apply Hgb; eauto).
    destruct gb; [destruct Hin|discriminate]. }
  set (rows_a := predictions_where (is_value v) values (preds self)).
  set (rows_b := predictions_where (fun x => negb (is_value v x)) values
                                   (preds self)).
  assert (Ea : pa = rows_a).
  { apply (selects_functional (preds self) (positions v values));
      [exact Hpa|apply selects_positions; exact Hlp]. }
  assert (Pb : Permutation pb rows_b).
  { destruct (Permutation_Forall2 Hperm (selects_app _ _ _ _ _ Hpa Hpb))
      as (all & Hall & Hsel).
    assert (Eall : all = firstn (length values) (preds self)).
    { apply (selects_functional (preds self) (seq 0 (length values)));
        [exact Hsel|]. apply (selects_seq (preds self) [] _ Hlp). }
    subst all. rewrite Ea in Hall.
    apply (Permutation_app_inv_l rows_a).
    apply (Permutation_trans Hall).
    apply predictions_partition. exact Hlp. }
  pose proof (predictions_where_length (is_value v) values (preds self)) as La.
  pose proof (predictions_where_length (fun x => negb (is_value v x)) values
                (preds self)) as Lb.
  pose proof (Permutation_length Pb) as Lpb.
  fold rows_a in La. fold rows_b in Lb.
  eexists _, _. split.
  - rewrite (explain_checked self feature_column values (SingleValue v) labels
               Hcol Hv).
    rewrite Hgroups, Hlabels. simpl.
    rewrite (dpl_total ta tb pa pb _ Hpa_ne Hpb_ne).
    rewrite (di_total ta tb pa pb _ Hpa_ne Hpb_ne). reflexivity.
  - intros l Hl. simpl. rewrite !fold_dict_set_get.
    destruct (in_dec key_eq_dec l (resolved_labels self labels));
      [|contradiction].
    rewrite !proportion_spec by (subst pa; lia).
    rewrite (spec_proportion_perm pb rows_b l Pb), Ea.
    split; reflexivity.
Qed.

(** X7: when every row of the column holds the same value, the rest is
    empty, and a one-value-against-the-rest call on that value with at
    least one label to score ends in a [ZeroDivisionError]. *)
Theorem explain_single_valued_column (self : BiasAnalyzer F T P L)
  (feature_column : string) (values : list F) (v : F)
  (labels : labels_arg L) :
  dict_get feature_column (data self) = Some values ->
  values <> [] ->
  (forall w, In w values -> w = v) ->
  (length values <= length (targs self))%nat ->
  (length values <= length (preds self))%nat ->
  resolved_labels self labels <> [] ->
  explain self feature_column (SingleValue v) labels
  = Raise ZeroDivisionError.
Proof.
  intros Hcol Hne Hall Hlt Hlp Hlabels.
  assert (Hv : In v values).
  { destruct values as [|w values]; [congruence|].
    rewrite <- (Hall w (or_introl eq_refl)). left. reflexivity. }
  destruct (one_vs_rest_facts values v Hv) as (gb & Hgroups & Hperm & Hgb).
  assert (Hempty : gb = []).
  { destruct gb as [|i gb]; [reflexivity|]. exfalso.
    destruct (proj1 (Hgb i) (or_introl eq_refl)) as (w & Hw & Hwv).
    apply Hwv, Hall. apply nth_error_In with i. exact Hw. }
  subst gb.
  assert (Hrange : Forall (fun i => i < length (targs self)
                                    /\ i < length (preds self))%nat
                          (positions v values ++ [])).
  { apply Forall_forall. intros i Hi.
    apply (Permutation_in _ Hperm) in Hi. apply in_seq in Hi. lia. }
  destruct (get_labels_in_range self _ _ labels Hrange)
    as (ta & tb & pa & pb & Hget & _ & _ & _ & Hpb).
  apply (explain_empty_group self feature_column values (SingleValue v) labels
           (positions v values) [] ta tb pa pb (resolved_labels self labels)
           Hcol Hv Hgroups Hget); [|exact Hlabels].
  right. inversion Hpb. reflexivity.
Qed.

(** C2, as the code has it: with an empty group and at least one label,
    [_dpl] ends in the [ZeroDivisionError] of its own division by the
    length of the group; there is no guard and no error of the analyzer's
    own.  A call of [explain] whose checks pass, whose two groups have a
    target and a prediction at each of their rows and one of which has no
    row, ends in the same [ZeroDivisionError] when there is a label to
    score. *)
Theorem empty_group_raises_ZeroDivisionError :
  (forall (targ_a targ_b : list T) (pred_a pred_b : list P)
          (labels : list L),
      pred_a = [] \/ pred_b = [] ->
      labels <> [] ->
      _dpl targ_a targ_b pred_a pred_b labels = Raise ZeroDivisionError)
  /\ (forall (self : BiasAnalyzer F T P L) (feature_column : string)
             (values : list F) (arg : groups_arg F) (labels : labels_arg L)
             (group_a group_b : list nat),
        dict_get feature_column (data self) = Some values ->
        all_known values arg ->
        groups (feat_value2idx values) arg = (group_a, group_b) ->
        group_a = [] \/ group_b = [] ->
        Forall (fun i => i < length (targs self) /\ i < length (preds self))%nat
               (group_a ++ group_b) ->
        resolved_labels self labels <> [] ->
        explain self feature_column arg labels = Raise ZeroDivisionError).
Proof.
  split; [intros; apply dpl_empty_group; assumption|].
  intros self feature_column values arg labels group_a group_b
         Hcol Hknown Hgroups Hempty Hrange Hlabels.
  destruct (get_labels_in_range self group_a group_b labels Hrange)
    as (ta & tb & pa & pb & Hget & _ & _ & Hpa & Hpb).
  apply (explain_empty_group self feature_column values arg labels
           group_a group_b ta tb pa pb (resolved_labels self labels)
           Hcol Hknown Hgroups Hget); [|exact Hlabels].
  destruct Hempty as [-> | ->]; [left; inversion Hpa|right; inversion Hpb];
    reflexivity.
Qed.

End ExplainEndToEnd.

(** ** More on the two metrics *)

Section MetricKeys.
Context {T P L : Type} `{PyEq P L} `{PyKey L}.

Lemma dict_set_keys {V : Type} (k : L) (v : V) (d : dict L V) :
  map fst (dict_set k v d) =
  if in_dec key_eq_dec k (map fst d) then map fst d else map fst d ++ [k].
Proof.
  destruct (dict_get k d) as [v0|] eqn:Hg.
  - erewrite dict_set_keys_present by eassumption.
    destruct (in_dec key_eq_dec k (map fst d)) as [_|Hn]; [reflexivity|].
    apply dict_get_None in Hn. congruence.
  - rewrite dict_set_keys_absent by assumption. rewrite map_app. simpl.
    destruct (in_dec key_eq_dec k (map fst d)) as [Hin|_]; [|reflexivity].
    apply dict_get_None in Hg. contradiction.
Qed.

Lemma fold_dict_set_keys {V : Type} (f : L -> V) (ks : list L) :
  forall d : dict L V,
    map fst (fold_left (fun m l => dict_set l (f l) m) ks d)
    = first_seen_from (map fst d) ks.
Proof.
  induction ks as [|k ks IH]; intros d; simpl; [reflexivity|].
  rewrite IH, dict_set_keys. reflexivity.
Qed.

(** X8: for two non-empty groups [_dpl] returns a mapping that gives every
    label of [labels] the difference [qa - qb] of the specification's
    proportions [count(pred == l) / |pred|] of the label among the
    predictions of group A and of group B; it has no other key. *)
Theorem dpl_is_qa_minus_qb (targ_a targ_b : list T) (pred_a pred_b : list P)
  (labels : list L) :
  pred_a <> [] -> pred_b <> [] ->
  (Z.of_nat (length pred_a) < 2 ^ 63)%Z ->
  (Z.of_nat (length pred_b) < 2 ^ 63)%Z ->
  exists metrics,
    _dpl targ_a targ_b pred_a pred_b labels = Ok metrics
    /\ (forall l, In l labels ->
          dict_get l metrics
          = Some (spec_proportion pred_a l - spec_proportion pred_b l)%float)
    /\ (forall l, ~ In l labels -> dict_get l metrics = None).
Proof.
  intros Ha Hb Hla Hlb. eexists. split; [apply dpl_total; assumption|].
  split; intros l Hl; rewrite fold_dict_set_get;
    destruct (in_dec key_eq_dec l labels); try tauto.
  rewrite !proportion_spec by assumption. reflexivity.
Qed.

(** X9: the mappings of both metrics list every distinct label once, at the
    place of its first occurrence in [labels]: a label given twice (as the
    targets of a regression are, when they serve as labels) is scored
    once. *)
Theorem metric_keys_are_first_seen_labels (targ_a targ_b : list T)
  (pred_a pred_b : list P) (labels : list L) :
  pred_a <> [] -> pred_b <> [] ->
  exists dpl di,
    _dpl targ_a targ_b pred_a pred_b labels = Ok dpl
    /\ _di targ_a targ_b pred_a pred_b labels = Ok di
    /\ map fst dpl = first_seen labels
    /\ map fst di = first_seen labels
    /\ NoDup (first_seen labels)
    /\ (forall l, In l (first_seen labels) <-> In l labels).
Proof.
  intros Ha Hb. eexists _, _.
  split; [apply dpl_total; assumption|].
  split; [apply di_total; assumption|].
  rewrite !fold_dict_set_keys. split; [reflexivity|]. split; [reflexivity|].
  destruct (first_seen_from_spec labels [] (NoDup_nil L)) as [Hnd Hmem].
  split; [exact Hnd|]. intros l. rewrite (Hmem l). simpl. tauto.
Qed.

(** X10: the [1e-8] of [_di] guards the division by [qa] only: with an
    empty group and at least one label [_di] ends in the
    [ZeroDivisionError] of its division by the length of the group. *)
Theorem di_empty_group_raises (targ_a targ_b : list T)
  (pred_a pred_b : list P) (labels : list L) :
  pred_a = [] \/ pred_b = [] ->
  labels <> [] ->
  _di targ_a targ_b pred_a pred_b labels = Raise ZeroDivisionError.
Proof.
  intros Hempty Hlabels.
  destruct labels as [|label labels]; [congruence|].
  unfold _di. simpl.
  destruct pred_a as [|p pred_a].
  - reflexivity.
  - destruct Hempty as [Ha|Hb]; [discriminate|]. subst pred_b.
    rewrite int_truediv_pos by (simpl; congruence). reflexivity.
Qed.

End MetricKeys.

(** ** The constructor and the batched prediction *)

Lemma argmax_loop_bound (ip : list float) :
  forall (mp : float) (max_ind i : nat),
    max_ind < i -> argmax_loop mp max_ind i ip < i + length ip.
Proof.
  induction ip as [|x ip IH]; intros mp max_ind i Hlt; simpl; [lia|].
  destruct (PrimFloat.is_nan mp); [lia|].
  destruct (negb (x <=? mp)%float).
  - specialize (IH x i (S i) ltac:(lia)). lia.
  - specialize (IH mp max_ind (S i) ltac:(lia)). lia.
Qed.

Lemma argmax_bound (row : list float) :
  row <> [] -> argmax row < length row.
Proof.
  destruct row as [|x ip]; [congruence|]. intros _. simpl.
  pose proof (argmax_loop_bound ip x 0 1 ltac:(lia)). lia.
Qed.

Lemma np_concatenate_same_shape (arrays : list ndarray) (c : nat) :
  arrays <> [] ->
  Forall (fun a => shape1 a = c) arrays ->
  np_concatenate arrays
  = Ok {| shape1 := c; items := concat (map items arrays) |}.
Proof.
  destruct arrays as [|a rest]; [congruence|]. intros _ Hall.
  inversion Hall as [|? ? Ha Hrest]; subst. unfold np_concatenate.
  replace (forallb _ rest) with true; [reflexivity|].
  symmetry. apply forallb_forall. intros b Hb.
  rewrite Forall_forall in Hrest. rewrite (Hrest b Hb). apply Nat.eqb_refl.
Qed.

Lemma concat_same_lengths {A B : Type} (f : A -> list B) (g : A -> list (list float))
  (l : list A) :
  Forall (fun a => length (g a) = length (f a)) l ->
  length (concat (map g l)) = length (concat (map f l)).
Proof.
  induction 1 as [|a l Ha _ IH]; simpl; [reflexivity|].
  rewrite !length_app, Ha, IH. reflexivity.
Qed.

Section PredictShape.
Context {V : Type}.
Variable predict_function : Tabular V -> ndarray.
Variable X : Tabular V.

Lemma batches_are_slices (s : nat) (B : Tabular V) :
  In B (batches_of X s) -> exists i j, B = slice X i j.
Proof.
  unfold batches_of. rewrite map_map. intros HB. apply in_map_iff in HB.
  destruct HB as (k & <- & _). eauto.
Qed.

Lemma predict_nothing_to_concatenate (mode : string) (batch_size : Z) :
  (rows X = [] \/ (batch_size <= 0)%Z) ->
  _predict mode predict_function X batch_size = Raise ValueError.
Proof.
  intros [Hrows|Hb].
  - destruct (Z.leb_spec batch_size 0) as [Hle|Hlt].
    + apply predict_without_batches. exact Hle.
    + rewrite predict_unfold by exact Hlt.
      assert (Hnil : batches_of X (Z.to_nat batch_size) = [])
        by (apply batches_of_nil; [lia|exact Hrows]).
      rewrite Hnil. reflexivity.
  - apply predict_without_batches. exact Hb.
Qed.

(** X11: [_predict] ends in a [ValueError] on a data set without rows,
    whatever the batch size, and on a batch size that is zero or negative,
    whatever the data set. *)
Theorem predict_ValueError (mode : string) (batch_size : Z) :
  (rows X = [] \/ (batch_size <= 0)%Z) ->
  _predict mode predict_function X batch_size = Raise ValueError.
Proof. apply predict_nothing_to_concatenate. Qed.

Section WellShaped.
Variable c : nat.
Hypothesis Hshape :
  forall i j,
    shape1 (predict_function (slice X i j)) = c
    /\ length (items (predict_function (slice X i j)))
       = length (rows (slice X i j))
    /\ Forall (fun row => length row = c)
              (items (predict_function (slice X i j))).

Lemma predict_concatenated (batch_size : Z) :
  (0 < batch_size)%Z -> rows X <> [] ->
  exists z,
    np_concatenate (map predict_function (batches_of X (Z.to_nat batch_size)))
    = Ok z
    /\ shape1 z = c
    /\ length (items z) = length (rows X)
    /\ Forall (fun row => length row = c) (items z).
Proof.
  intros Hb Hrows. set (s := Z.to_nat batch_size).
  assert (Hs : 0 < s) by (unfold s; lia).
  assert (Hall : forall B, In B (batches_of X s) ->
            shape1 (predict_function B) = c
            /\ length (items (predict_function B)) = length (rows B)
            /\ Forall (fun row => length row = c) (items (predict_function B))).
  { intros B HB. destruct (batches_are_slices s B HB) as (i & j & ->).
    apply Hshape. }
  rewrite (np_concatenate_same_shape _ c).
  - eexists. split; [reflexivity|]. simpl. split; [reflexivity|]. split.
    + rewrite map_map.
      rewrite (concat_same_lengths (@rows V)).
      * rewrite (batches_cover X s Hs). reflexivity.
      * apply Forall_forall. intros B HB. apply Hall. exact HB.
    + apply Forall_concat. rewrite map_map. apply Forall_map.
      apply Forall_forall. intros B HB. apply Hall. exact HB.
  - intros He. apply map_eq_nil in He.
    apply (batches_of_nil X s Hs) in He. contradiction.
  - apply Forall_map. apply Forall_forall. intros B HB. apply Hall. exact HB.
Qed.

(** X12: when the prediction function returns, for every batch, one row of
    [c] scores per row of the batch ([c] at least 1), the classifier's
    [_predict] succeeds on a data set with rows, with exactly one
    prediction per row, each the index of a class, from 0 to [c - 1]. *)
Theorem predict_one_class_per_row (mode : string) (batch_size : Z) :
  (0 < batch_size)%Z -> rows X <> [] -> 0 < c ->
  String.eqb mode "regression" = false ->
  exists classes,
    _predict mode predict_function X batch_size
    = Ok (map (fun k => VInt (Z.of_nat k)) classes)
    /\ length classes = length (rows X)
    /\ Forall (fun k => k < c) classes.
Proof.
  intros Hb Hrows Hc Hmode.
  destruct (predict_concatenated batch_size Hb Hrows)
    as (z & Hz & Hz1 & Hlen & Hrowsz).
  rewrite predict_unfold by exact Hb. rewrite Hz, Hmode. simpl.
  unfold np_argmax_axis1. rewrite Hz1.
  destruct (Nat.eqb_spec c 0); [lia|]. simpl.
  exists (map argmax (items z)). split; [reflexivity|].
  split; [rewrite length_map; exact Hlen|].
  apply Forall_map. eapply Forall_impl; [|exact Hrowsz].
  intros row Hrow. simpl. rewrite <- Hrow. apply argmax_bound.
  intros ->. simpl in Hrow. lia.
Qed.

(** X13: when the prediction function returns, for every batch, one
    estimate per row of the batch, the regressor's [_predict] succeeds on a
    data set with rows, with exactly one prediction per row. *)
Theorem predict_one_estimate_per_row (batch_size : Z) :
  (0 < batch_size)%Z -> rows X <> [] -> c = 1 ->
  exists estimates,
    _predict "regression" predict_function X batch_size
    = Ok (map VFloat estimates)
    /\ length estimates = length (rows X).
Proof.
  intros Hb Hrows Hc.
  destruct (predict_concatenated batch_size Hb Hrows)
    as (z & Hz & Hz1 & Hlen & Hrowsz).
  rewrite predict_unfold by exact Hb. rewrite Hz. simpl.
  exists (flatten z). split; [reflexivity|].
  unfold flatten. rewrite <- Hlen. clear - Hrowsz Hc. subst c.
  induction Hrowsz as [|row l Hrow _ IH]; simpl; [reflexivity|].
  rewrite length_app, Hrow, IH. reflexivity.
Qed.




End WellShaped.
End PredictShape.

Section Constructor.
Context {rt : Runtime}.

Lemma mode_checked (mode : string) :
  mode = "classification" \/ mode = "regression" ->
  existsb (String.eqb mode) ["classification"; "regression"] = true.
Proof. intros [-> | ->]; reflexivity. Qed.

(** X14: the constructor checks its configuration before anything else: a
    mode other than "classification" and "regression" ends it in the
    assertion error on the mode, whatever the other arguments are, and with
    a valid mode a missing prediction function ends it in the assertion
    error on the prediction function. *)
Theorem init_checks_configuration (training_data : Tabular value)
  (training_targets : option (list value)) (batch_size : option Z)
  (mode : string) :
  (mode <> "classification" -> mode <> "regression" ->
   forall predict_function,
     __init__ training_data predict_function mode training_targets batch_size
     = Raise (AssertionError
                "`BiasAnalyzer` only supports classification and regression models."))
  /\ (mode = "classification" \/ mode = "regression" ->
      __init__ training_data None mode training_targets batch_size
      = Raise (AssertionError "`predict_function` is not None.")).
Proof.
  split.
  - intros Hc Hr predict_function. unfold __init__. simpl.
    destruct (String.eqb_spec mode "classification"); [contradiction|].
    destruct (String.eqb_spec mode "regression"); [contradiction|].
    reflexivity.
  - intros Hmode. unfold __init__. rewrite (mode_checked mode Hmode).
    reflexivity.
Qed.

(** X15: with integer targets that fit 64 bits (or, for a regression,
    float targets), a valid mode and a prediction function whose batched
    predictions succeed, the constructor succeeds: the analyzer keeps the
    mode, every column of the data (a target column is not removed on this
    path), the targets and the predictions; for a regression the labels are
    the targets themselves, and for a classification they are the distinct
    targets, each listed once. *)
Theorem init_with_targets_succeeds (training_data : Tabular value)
  (f : Tabular value -> ndarray) (task : string) (targets : list value)
  (batch_size : option Z) (predictions : list value) :
  runtime_laws rt ->
  task = "classification" \/ task = "regression" ->
  _predict task f training_data
           (match batch_size with Some b => b | None => 64%Z end)
  = Ok predictions ->
  ((exists zs, targets = map VInt zs /\ Forall int64 zs)
   \/ (task = "regression" /\ exists fs, targets = map VFloat fs)) ->
  exists self,
    __init__ training_data (Some f) task (Some targets) batch_size = Ok self
    /\ mode self = task
    /\ data self = to_pd training_data
    /\ targs self = targets
    /\ preds self = predictions
    /\ (task = "regression" -> all_labels self = targets)
    /\ (task = "classification" ->
        NoDup (all_labels self)
        /\ forall l, In l (all_labels self) <-> In l targets).
Proof.
  intros [Hints Hfloats Hcast Hset] Htask Hpredict Hnum. unfold __init__.
  rewrite (mode_checked task Htask). simpl. rewrite Hpredict. simpl.
  assert (Harr : np_array targets = targets).
  { destruct Hnum as [(zs & -> & Hzs)|(_ & fs & ->)]; auto. }
  rewrite Harr.
  destruct Htask as [-> | ->]; simpl.
  - destruct Hnum as [(zs & -> & Hzs)|(E & _)]; [|discriminate].
    rewrite (Hcast zs Hzs). simpl. eexists. split; [reflexivity|]. simpl.
    split; [reflexivity|]. split; [reflexivity|]. split; [reflexivity|].
    split; [reflexivity|]. split; [discriminate|]. intros _.
    destruct (Hset zs) as [Hnd Hmem]. split.
    + apply Finite.Injective_map_NoDup; [|exact Hnd].
      intros x y E. injection E as ->. reflexivity.
    + intros l. rewrite !in_map_iff.
      split; intros (z & <- & Hz); exists z; (split; [reflexivity|]);
        apply Hmem; exact Hz.
  - eexists. split; [reflexivity|]. simpl.
    split; [reflexivity|]. split; [reflexivity|]. split; [reflexivity|].
    split; [reflexivity|]. split; [reflexivity|]. discriminate.
Qed.

(** X16: an analyzer cannot be built over a data set without rows, nor with
    a batch size that is zero or negative: with targets given, a valid mode
    and a prediction function, the constructor ends in the [ValueError] of
    [_predict]. *)
Theorem init_ValueError (training_data : Tabular value)
  (f : Tabular value -> ndarray) (task : string) (targets : list value)
  (batch_size : option Z) :
  task = "classification" \/ task = "regression" ->
  (rows training_data = []
   \/ (match batch_size with Some b => b | None => 64 end <= 0)%Z) ->
  __init__ training_data (Some f) task (Some targets) batch_size
  = Raise ValueError.
Proof.
  intros Htask Hbad. unfold __init__.
  rewrite (mode_checked task Htask). simpl.
  rewrite (predict_nothing_to_concatenate f training_data task _ Hbad).
  reflexivity.
Qed.

End Constructor.

(** ** Proportions as binary64 numbers *)

Section Proportions.
Local Open Scope Z_scope.

Lemma binary_round_aux_finite (s : bool) (m e : Z) (l : location) :
  0 < m -> - 1073 <= Zdigits2 m + e -> Zdigits2 m + e <= 1022 -> e <= 971 ->
  exists m' e',
    binary_round_aux prec emax s m e l = S754_finite s m' e'
    /\ Zdigits2 m + e <= Zdigits2 (Z.pos m') + e' <= Zdigits2 m + e + 1.
Proof.
  intros Hm Hd Hup He. unfold binary_round_aux.
  destruct (shr_fexp_positive m e l Hm Hd) as (mrs1 & e1 & -> & Hm1 & Hd1 & He1).
  destruct (round_nearest_even_bounds (shr_m mrs1) (loc_of_shr_record mrs1) Hm1)
    as [Hr Hrd].
  destruct (shr_fexp_positive _ e1 loc_Exact Hr ltac:(lia))
    as (mrs2 & e2 & -> & Hm2 & Hd2 & He2).
  destruct (shr_m mrs2) as [|p|p] eqn:Hp; try lia.
  exists p, e2.
  unfold fexp, emin, prec, emax in *.
  destruct (Z.leb_spec e2 (1024 - 53)) as [_|Hbad]; [|lia].
  split; [reflexivity|lia].
Qed.

(** The float of a positive length: a normal number between 1 and 2^64. *)
Lemma float_of_len_normal (n : nat) :
  (0 < n)%nat -> Z.of_nat n < 2 ^ 63 ->
  exists m e,
    Prim2SF (float_of_len n) = S754_finite false m e
    /\ Zdigits2 (Z.pos m) = 53 /\ - 52 <= e <= 11.
Proof.
  intros Hn Hlt.
  pose proof (Prim2SF_valid (float_of_len n)) as Hvalid.
  unfold float_of_len in *.
  rewrite FloatAxioms.of_uint63_spec, Uint63.of_Z_spec in *.
  rewrite Z.mod_small in * by (change wB with (2 ^ 63); lia).
  destruct (Z.of_nat n) as [|p|p] eqn:Hp; try lia.
  simpl binary_normalize in *.
  assert (Hlog : Z.log2 (Z.pos p) < 63) by (apply Z.log2_lt_pow2; lia).
  pose proof (Z.log2_nonneg (Z.pos p)) as Hnn.
  pose proof (Zdigits2_log2 (Z.pos p) ltac:(lia)) as Hd.
  unfold binary_round in *.
  change (Z.pos (digits2_pos p)) with (Zdigits2 (Z.pos p)) in *.
  destruct (shl_align_spec p 0 (fexp prec emax (Zdigits2 (Z.pos p) + 0)))
    as (mz & ez & Hal & Hez & Hdig).
  rewrite Hal in *.
  destruct (binary_round_aux_finite false (Z.pos mz) ez loc_Exact
              ltac:(lia) ltac:(lia) ltac:(lia) ltac:(lia))
    as (m' & e' & Hr & Hde).
  rewrite Hr in *. exists m', e'. split; [reflexivity|].
  simpl in Hvalid. unfold bounded, canonical_mantissa in Hvalid.
  apply andb_prop in Hvalid. destruct Hvalid as [Hcan _].
  apply Z.eqb_eq in Hcan.
  change (Z.pos (digits2_pos m')) with (Zdigits2 (Z.pos m')) in Hcan.
  unfold fexp, emin, prec, emax in Hcan. lia.
Qed.

Lemma float_of_len_zero : Prim2SF (float_of_len 0) = S754_zero false.
Proof. reflexivity. Qed.

Lemma pow2_digits_bounds (m : positive) :
  Zdigits2 (Z.pos m) = 53 -> 2 ^ 52 <= Z.pos m < 2 ^ 53.
Proof.
  intros Hd. rewrite Zdigits2_log2 in Hd by lia.
  pose proof (Z.log2_spec (Z.pos m) ltac:(lia)) as Hs.
  replace (Z.log2 (Z.pos m)) with 52 in Hs by lia. exact Hs.
Qed.

(** The quotient of two normal numbers of moderate size is a positive
    finite number. *)
Lemma SFdiv_normal (m1 m2 : positive) (e1 e2 : Z) :
  Zdigits2 (Z.pos m1) = 53 -> Zdigits2 (Z.pos m2) = 53 ->
  - 52 <= e1 <= 11 -> - 52 <= e2 <= 11 ->
  exists m e,
    SFdiv prec emax (S754_finite false m1 e1) (S754_finite false m2 e2)
    = S754_finite false m e.
Proof.
  intros Hd1 Hd2 He1 He2. unfold SFdiv, SFdiv_core_binary.
  rewrite Hd1, Hd2.
  replace (Z.min (fexp prec emax (53 + e1 - (53 + e2))) (e1 - e2))
    with (e1 - e2 - 53) by (unfold fexp, emin, prec, emax; lia).
  replace (e1 - e2 - (e1 - e2 - 53)) with 53 by lia.
  rewrite Z.shiftl_mul_pow2 by lia.
  pose proof (pow2_digits_bounds m1 Hd1) as Hb1.
  pose proof (pow2_digits_bounds m2 Hd2) as Hb2.
  pose proof (Z.div_mod (Z.pos m1 * 2 ^ 53) (Z.pos m2) ltac:(lia)) as Hdm.
  pose proof (Z.mod_pos_bound (Z.pos m1 * 2 ^ 53) (Z.pos m2) ltac:(lia)) as Hr.
  unfold Z.div, Z.modulo in Hdm, Hr.
  destruct (Z.div_eucl (Z.pos m1 * 2 ^ 53) (Z.pos m2)) as [q r].
  change (xorb false false) with false.
  assert (Hq : 2 ^ 52 <= q < 2 ^ 54) by nia.
  assert (Hlog : 52 <= Z.log2 q < 54).
  { split.
    - change 52 with (Z.log2 (2 ^ 52)). apply Z.log2_le_mono. lia.
    - apply Z.log2_lt_pow2; lia. }
  pose proof (Zdigits2_log2 q ltac:(lia)) as Hdq.
  destruct (binary_round_aux_finite false q (e1 - e2 - 53)
              (new_location (Z.pos m2) r)
              ltac:(lia) ltac:(lia) ltac:(lia) ltac:(lia))
    as (m & e & -> & _).
  eauto.
Qed.

Lemma ratio_proportion_like (a b : nat) :
  (0 < b)%nat -> Z.of_nat a < 2 ^ 63 -> Z.of_nat b < 2 ^ 63 ->
  proportion_like (float_of_len a / float_of_len b)%float.
Proof.
  intros Hb Ha Hlb. unfold proportion_like.
  rewrite FloatAxioms.div_spec.
  destruct (float_of_len_normal b Hb Hlb) as (m2 & e2 & -> & Hd2 & He2).
  destruct a as [|a].
  - rewrite float_of_len_zero. left. reflexivity.
  - destruct (float_of_len_normal (S a) ltac:(lia) Ha)
      as (m1 & e1 & -> & Hd1 & He1).
    right. apply SFdiv_normal; assumption.
Qed.

Lemma binary_round_aux_opp (m e : Z) (l : location) :
  binary_round_aux prec emax true m e l
  = SFopp (binary_round_aux prec emax false m e l).
Proof.
  unfold binary_round_aux.
  destruct (shr_fexp prec emax m e l) as [mrs1 e1].
  destruct (shr_fexp prec emax _ e1 loc_Exact) as [mrs2 e2].
  destruct (shr_m mrs2); try reflexivity.
  destruct (e2 <=? emax - prec); reflexivity.
Qed.

Lemma binary_normalize_opp (m e : Z) :
  m <> 0 ->
  binary_normalize prec emax (- m) e false
  = SFopp (binary_normalize prec emax m e false).
Proof.
  destruct m as [|p|p]; intros Hm; try congruence; simpl;
    unfold binary_round; destruct (shl_align _ _ _) as [mz ez];
    rewrite binary_round_aux_opp; [reflexivity|].
  destruct (binary_round_aux prec emax false (Z.pos mz) ez loc_Exact);
    simpl; rewrite ?negb_involutive; reflexivity.
Qed.

(** Subtraction the other way round gives the opposite number, unless both
    differences are zero. *)
Lemma SFsub_swap (x y : spec_float) :
  (x = S754_zero false \/ exists m e, x = S754_finite false m e) ->
  (y = S754_zero false \/ exists m e, y = S754_finite false m e) ->
  SFsub prec emax y x = SFopp (SFsub prec emax x y)
  \/ (SFsub prec emax x y = S754_zero false
      /\ SFsub prec emax y x = S754_zero false).
Proof.
  intros [->|(mx & ex & ->)] [->|(my & ey & ->)].
  - right. split; reflexivity.
  - left. reflexivity.
  - left. reflexivity.
  - unfold SFsub, cond_Zopp. rewrite (Z.min_comm ey ex).
    set (a := Z.pos (fst (shl_align mx ex (Z.min ex ey)))).
    set (b := Z.pos (fst (shl_align my ey (Z.min ex ey)))).
    destruct (Z.eq_dec (a - b) 0) as [E|E].
    + right. replace (b - a) with 0 by lia. rewrite E. split; reflexivity.
    + left. replace (b - a) with (- (a - b)) by lia.
      apply binary_normalize_opp. exact E.
Qed.

Lemma SFsub_self (x : spec_float) :
  (x = S754_zero false \/ exists m e, x = S754_finite false m e) ->
  SFsub prec emax x x = S754_zero false.
Proof.
  intros [->|(m & e & ->)]; [reflexivity|].
  unfold SFsub, cond_Zopp. rewrite Z.sub_diag. reflexivity.
Qed.

End Proportions.

Lemma float_sub_swap (x y : float) :
  proportion_like x -> proportion_like y ->
  (y - x = - (x - y) \/ (x - y = 0 /\ y - x = 0))%float.
Proof.
  intros Hx Hy.
  destruct (SFsub_swap (Prim2SF x) (Prim2SF y) Hx Hy) as [Hs|[H1 H2]].
  - left. apply Prim2SF_inj.
    rewrite FloatAxioms.opp_spec, !FloatAxioms.sub_spec. exact Hs.
  - right. split; apply Prim2SF_inj; rewrite FloatAxioms.sub_spec;
      assumption.
Qed.

Lemma float_sub_self (x : float) :
  proportion_like x -> (x - x = 0)%float.
Proof.
  intros Hx. apply Prim2SF_inj. rewrite FloatAxioms.sub_spec.
  exact (SFsub_self (Prim2SF x) Hx).
Qed.

Section AddEps.
Local Open Scope Z_scope.

(** Adding [1e-8] to a proportion gives a positive number. *)
Lemma SFadd_eps_positive (x : spec_float) :
  (x = S754_zero false \/ exists m e, x = S754_finite false m e) ->
  (exists m e,
      SFadd prec emax x (S754_finite false 6044629098073146 (-79))
      = S754_finite false m e)
  \/ SFadd prec emax x (S754_finite false 6044629098073146 (-79))
     = S754_infinity false.
Proof.
  intros [->|(mx & ex & ->)]; [left; simpl; eauto|].
  unfold SFadd, cond_Zopp.
  set (ez := Z.min ex (-79)).
  destruct (shl_align_spec mx ex ez) as (a & ea & -> & Hea & Ha).
  destruct (shl_align_spec 6044629098073146 (-79) ez) as (b & eb & -> & Heb & Hb).
  simpl fst. change (Z.pos a + Z.pos b) with (Z.pos (a + b)).
  assert (Hdig : - 1073 <= Zdigits2 (Z.pos (a + b)) + ez).
  { assert (Hb' : Zdigits2 (Z.pos b) + eb = -26) by (rewrite Hb; reflexivity).
    rewrite !Zdigits2_log2 in * by lia.
    pose proof (Z.log2_le_mono (Z.pos b) (Z.pos (a + b)) ltac:(lia)). lia. }
  change (binary_normalize prec emax (Z.pos (a + b)) ez false)
    with (binary_round prec emax false (a + b) ez).
  destruct (binary_round_positive false (a + b) ez Hdig) as (m' & e' & _ & ->).
  destruct (e' <=? emax - prec); eauto.
Qed.

End AddEps.

Lemma zero_over_plus_eps (x : float) :
  proportion_like x -> (0 / (x + eps) = 0)%float.
Proof.
  intros Hx. apply Prim2SF_inj.
  rewrite FloatAxioms.div_spec, FloatAxioms.add_spec.
  change (Prim2SF eps) with (S754_finite false 6044629098073146 (-79)).
  change (Prim2SF 0) with (S754_zero false).
  unfold SF64div, SF64add.
  destruct (SFadd_eps_positive (Prim2SF x) Hx) as [(m & e & ->)| ->];
    reflexivity.
Qed.

(** ** Algebra of the two metrics *)

Section MetricAlgebra.
Context {T P L : Type} `{PyEq P L} `{PyKey L}.

Lemma count_label_le (pred : list P) (l : L) :
  count_label pred l <= length pred.
Proof. unfold count_label. apply filter_length_le. Qed.

Lemma proportion_is_proportion_like (pred : list P) (l : L) :
  pred <> [] -> (Z.of_nat (length pred) < 2 ^ 63)%Z ->
  proportion_like (proportion pred l).
Proof.
  intros Hne Hlt. unfold proportion.
  pose proof (count_label_le pred l) as Hle.
  apply length_nonempty in Hne.
  apply ratio_proportion_like; lia.
Qed.

Lemma count_label_none (pred : list P) (l : L) :
  (forall p, In p pred -> py_eq p l = false) -> count_label pred l = 0.
Proof.
  intros Hnone. unfold count_label.
  induction pred as [|p pred IH]; simpl; [reflexivity|].
  rewrite Hnone by (left; reflexivity). apply IH.
  intros q Hq. apply Hnone. right. exact Hq.
Qed.

Lemma proportion_none (pred : list P) (l : L) :
  pred <> [] -> (Z.of_nat (length pred) < 2 ^ 63)%Z ->
  (forall p, In p pred -> py_eq p l = false) ->
  proportion pred l = 0%float.
Proof.
  intros Hne Hlt Hnone. unfold proportion.
  rewrite count_label_none by exact Hnone.
  apply Prim2SF_inj. rewrite FloatAxioms.div_spec, float_of_len_zero.
  apply length_nonempty in Hne.
  destruct (float_of_len_normal (length pred) ltac:(lia) Hlt)
    as (m & e & -> & _).
  reflexivity.
Qed.

(** X17: exchanging the two groups changes the sign of DPL: for every
    label the score of (B, A) is the opposite of the score of (A, B), both
    being 0.0 when the two proportions are equal. *)
Theorem dpl_swapped_groups (targ_a targ_b : list T) (pred_a pred_b : list P)
  (labels : list L) :
  pred_a <> [] -> pred_b <> [] ->
  (Z.of_nat (length pred_a) < 2 ^ 63)%Z ->
  (Z.of_nat (length pred_b) < 2 ^ 63)%Z ->
  exists dpl_ab dpl_ba,
    _dpl targ_a targ_b pred_a pred_b labels = Ok dpl_ab
    /\ _dpl targ_b targ_a pred_b pred_a labels = Ok dpl_ba
    /\ forall l, In l labels ->
         exists x y,
           dict_get l dpl_ab = Some x /\ dict_get l dpl_ba = Some y
           /\ (y = - x \/ (x = 0 /\ y = 0))%float.
Proof.
  intros Ha Hb Hla Hlb. eexists _, _.
  split; [apply dpl_total; assumption|].
  split; [apply dpl_total; assumption|].
  intros l Hl. rewrite !fold_dict_set_get.
  destruct (in_dec key_eq_dec l labels); [|contradiction].
  eexists _, _. split; [reflexivity|]. split; [reflexivity|].
  apply float_sub_swap; apply proportion_is_proportion_like; assumption.
Qed.

(** X18: two groups of the same size with the same number of predictions
    of a label (a group compared with itself, for one) give that label the
    DPL score 0.0. *)
Theorem dpl_equal_counts (targ_a targ_b : list T) (pred_a pred_b : list P)
  (labels : list L) (l : L) :
  pred_a <> [] ->
  (Z.of_nat (length pred_a) < 2 ^ 63)%Z ->
  length pred_b = length pred_a ->
  count_label pred_b l = count_label pred_a l ->
  In l labels ->
  exists dpl,
    _dpl targ_a targ_b pred_a pred_b labels = Ok dpl
    /\ dict_get l dpl = Some 0%float.
Proof.
  intros Ha Hla Hlen Hcount Hl.
  assert (Hb : pred_b <> []).
  { intros ->. apply length_nonempty in Ha. simpl in Hlen. congruence. }
  eexists. split; [apply dpl_total; assumption|].
  rewrite fold_dict_set_get.
  destruct (in_dec key_eq_dec l labels); [|contradiction].
  f_equal. unfold proportion at 2. rewrite Hlen, Hcount.
  apply float_sub_self. apply proportion_is_proportion_like; assumption.
Qed.

(** X19: a label that no row of group B is predicted to have gets the DI
    score 0.0, whatever group A predicts. *)
Theorem di_zero_without_b_predictions (targ_a targ_b : list T)
  (pred_a pred_b : list P) (labels : list L) (l : L) :
  pred_a <> [] -> pred_b <> [] ->
  (Z.of_nat (length pred_a) < 2 ^ 63)%Z ->
  (Z.of_nat (length pred_b) < 2 ^ 63)%Z ->
  (forall p, In p pred_b -> py_eq p l = false) ->
  In l labels ->
  exists di,
    _di targ_a targ_b pred_a pred_b labels = Ok di
    /\ dict_get l di = Some 0%float.
Proof.
  intros Ha Hb Hla Hlb Hnone Hl.
  eexists. split; [apply di_total; assumption|].
  rewrite fold_dict_set_get.
  destruct (in_dec key_eq_dec l labels); [|contradiction].
  f_equal. rewrite (proportion_none pred_b l Hb Hlb Hnone).
  apply zero_over_plus_eps. apply proportion_is_proportion_like; assumption.
Qed.

End MetricAlgebra.

(** ** The reference runtime *)

Section ReferenceRuntime.

Lemma fits_int64_true (z : Z) : int64 z -> fits_int64 z = true.
Proof.
  unfold int64, fits_int64. intros Hz. apply andb_true_intro.
  split; [apply Z.leb_le|apply Z.ltb_lt]; lia.
Qed.

Lemma kind_of_ints_loop (zs : list Z) :
  Forall int64 zs ->
  fold_left (fun k y => promote k (element_kind y)) (map VInt zs) of_int64
  = of_int64.
Proof.
  induction 1 as [|z zs Hz _ IH]; simpl; [reflexivity|].
  rewrite (fits_int64_true z Hz). exact IH.
Qed.

Lemma kind_of_ints (z : Z) (zs : list Z) :
  Forall int64 (z :: zs) -> kind_of (map VInt (z :: zs)) = of_int64.
Proof.
  intros Hall. inversion Hall as [|? ? Hz Hzs]; subst. simpl.
  rewrite (fits_int64_true z Hz). apply kind_of_ints_loop. exact Hzs.
Qed.

Lemma kind_of_floats (fs : list float) :
  kind_of (map VFloat fs) = of_float64.
Proof.
  destruct fs as [|f fs]; [reflexivity|]. simpl.
  induction fs as [|g fs IH]; simpl; [reflexivity|exact IH].
Qed.

Lemma cast_ints (zs : list Z) :
  Forall int64 zs ->
  forall acc,
    for_each (map VInt zs)
      (fun acc x => z <- cast_int64 of_int64 x ;; Ok (acc ++ [z])) acc
    = Ok (acc ++ zs).
Proof.
  induction 1 as [|z zs Hz _ IH]; intros acc; simpl.
  - rewrite app_nil_r. reflexivity.
  - unfold checked_int64. rewrite (fits_int64_true z Hz). simpl.
    rewrite IH, <- app_assoc. reflexivity.
Qed.

Lemma insert_sorted_In (z x : Z) (l : list Z) :
  In x (insert_sorted z l) <-> x = z \/ In x l.
Proof.
  induction l as [|y l IH]; simpl; [intuition congruence|].
  destruct (Z.ltb_spec z y); simpl; [intuition congruence|].
  destruct (Z.eqb_spec z y); simpl; [subst; intuition congruence|].
  rewrite IH. intuition congruence.
Qed.

Lemma insert_sorted_sorted (z : Z) (l : list Z) :
  StronglySorted Z.lt l -> StronglySorted Z.lt (insert_sorted z l).
Proof.
  induction 1 as [|y l Hs IH Hy]; simpl; [repeat constructor|].
  destruct (Z.ltb_spec z y).
  - constructor; [constructor; assumption|]. constructor; [assumption|].
    eapply Forall_impl; [|exact Hy]. simpl. intros a Ha. lia.
  - destruct (Z.eqb_spec z y); [constructor; assumption|].
    constructor; [exact IH|]. apply Forall_forall. intros a Ha.
    apply insert_sorted_In in Ha. destruct Ha as [->|Ha]; [lia|].
    rewrite Forall_forall in Hy. apply Hy. exact Ha.
Qed.

Lemma sorted_set_sorted (zs : list Z) : StronglySorted Z.lt (sorted_set zs).
Proof.
  induction zs as [|z zs IH]; simpl; [constructor|].
  apply insert_sorted_sorted. exact IH.
Qed.

Lemma sorted_NoDup (l : list Z) : StronglySorted Z.lt l -> NoDup l.
Proof.
  induction 1 as [|y l _ IH Hy]; constructor; [|exact IH].
  intros Hin. rewrite Forall_forall in Hy. specialize (Hy y Hin). lia.
Qed.

Lemma sorted_set_In (zs : list Z) (z : Z) : In z (sorted_set zs) <-> In z zs.
Proof.
  induction zs as [|y zs IH]; simpl; [tauto|].
  rewrite insert_sorted_In, IH. intuition congruence.
Qed.

(** The reference runtime is a runtime as [runtime_laws] describes it. *)
Lemma reference_runtime_laws : runtime_laws reference_runtime.
Proof.
  split; simpl.
  - intros zs Hzs. unfold reference_np_array.
    destruct zs as [|z zs]; [reflexivity|]. rewrite kind_of_ints by exact Hzs.
    reflexivity.
  - intros fs. unfold reference_np_array. rewrite kind_of_floats.
    rewrite map_map. reflexivity.
  - intros zs Hzs. unfold reference_astype_int.
    destruct zs as [|z zs]; [reflexivity|]. rewrite kind_of_ints by exact Hzs.
    apply (cast_ints (z :: zs) Hzs []).
  - intros zs. split; [apply sorted_NoDup, sorted_set_sorted|].
    intros z. apply sorted_set_In.
Qed.

End ReferenceRuntime.

(** ** The further properties on example inputs *)

Lemma explain_short_arrays_witness :
  explain short_scenario "feat" (SingleValue "X") NoLabels = Raise IndexError.
Proof.
  apply (explain_short_arrays_IndexError short_scenario "feat"
           ["X"; "X"; "Y"; "Y"] "X" NoLabels).
  - reflexivity.
  - simpl. tauto.
  - simpl. lia.
Defined.

Lemma explain_one_vs_rest_witness :
  exists dpl di,
    explain skewed_scenario "feat" (SingleValue "X") NoLabels
    = Ok {| stdout := [[("DPL", dpl); ("DI", di)]]; returned := None |}
    /\ dict_get 0%Z dpl = Some (-0.5)%float
    /\ dict_get 1%Z dpl = Some 0.5%float
    /\ dict_get 0%Z di = Some 0x1.7d784p+25%float
    /\ dict_get 1%Z di = Some 0x1.ffffffaa19c49p-2%float.
Proof.
  destruct (explain_one_vs_rest_succeeds skewed_scenario "feat"
              ["X"; "X"; "Y"; "Y"] "X" "Y" NoLabels eq_refl
              ltac:(simpl; tauto) ltac:(simpl; tauto) ltac:(discriminate)
              ltac:(simpl; lia) ltac:(simpl; lia) ltac:(simpl; lia))
    as (dpl & di & Hrun & Hscores).
  destruct (Hscores 0%Z ltac:(simpl; tauto)) as [D0 I0].
  destruct (Hscores 1%Z ltac:(simpl; tauto)) as [D1 I1].
  exists dpl, di. split; [exact Hrun|].
  rewrite D0, D1, I0, I1. repeat split; reflexivity.
Defined.

Lemma explain_single_valued_column_witness :
  explain uniform_scenario "feat" (SingleValue "X") NoLabels
  = Raise ZeroDivisionError.
Proof.
  apply (explain_single_valued_column uniform_scenario "feat"
           ["X"; "X"; "X"] "X" NoLabels).
  - reflexivity.
  - discriminate.
  - simpl. intros w [E|[E|[E|[]]]]; congruence.
  - simpl. lia.
  - simpl. lia.
  - discriminate.
Defined.

Lemma dpl_is_qa_minus_qb_witness :
  exists metrics,
    _dpl [0; 1]%Z [0; 1]%Z [1; 1]%Z [0; 1; 1]%Z [0; 1]%Z = Ok metrics
    /\ dict_get 0%Z metrics = Some (-0x1.5555555555555p-2)%float
    /\ dict_get 1%Z metrics = Some 0x1.5555555555556p-2%float
    /\ dict_get 2%Z metrics = None.
Proof.
  destruct (dpl_is_qa_minus_qb [0; 1]%Z [0; 1]%Z [1; 1]%Z [0; 1; 1]%Z
              [0; 1]%Z ltac:(discriminate) ltac:(discriminate)
              ltac:(simpl; lia) ltac:(simpl; lia))
    as (metrics & Hrun & Hin & Hout).
  exists metrics. split; [exact Hrun|].
  rewrite (Hin 0%Z ltac:(simpl; tauto)), (Hin 1%Z ltac:(simpl; tauto)).
  split; [reflexivity|]. split; [reflexivity|].
  apply Hout. simpl. intros [E|[E|[]]]; discriminate.
Defined.

Lemma metric_keys_witness :
  exists dpl di,
    _dpl [0; 1]%Z [0; 1]%Z [0; 1]%Z [1; 1]%Z [1; 0; 1; 1]%Z = Ok dpl
    /\ _di [0; 1]%Z [0; 1]%Z [0; 1]%Z [1; 1]%Z [1; 0; 1; 1]%Z = Ok di
    /\ map fst dpl = [1; 0]%Z
    /\ map fst di = [1; 0]%Z.
Proof.
  destruct (metric_keys_are_first_seen_labels
              [0; 1]%Z [0; 1]%Z [0; 1]%Z [1; 1]%Z [1; 0; 1; 1]%Z
              ltac:(discriminate) ltac:(discriminate))
    as (dpl & di & Hdpl & Hdi & Hk1 & Hk2 & _).
  exists dpl, di. repeat split; assumption.
Defined.

Lemma di_empty_group_witness :
  _di [0; 1]%Z ([] : list Z) [0; 1]%Z ([] : list Z) [0; 1]%Z
  = Raise ZeroDivisionError.
Proof.
  apply di_empty_group_raises.
  - right. reflexivity.
  - discriminate.
Defined.

Lemma predict_ValueError_witness :
  _predict "classification" constant_predict empty_data 64 = Raise ValueError
  /\ _predict "regression" constant_predict labelled_data 0 = Raise ValueError.
Proof.
  split.
  - apply predict_ValueError. left. reflexivity.
  - apply predict_ValueError. right. lia.
Defined.

Lemma constant_predict_shape (i j : nat) :
  shape1 (constant_predict (slice labelled_data i j)) = 2
  /\ length (items (constant_predict (slice labelled_data i j)))
     = length (rows (slice labelled_data i j))
  /\ Forall (fun row => length row = 2)
            (items (constant_predict (slice labelled_data i j))).
Proof.
  split; [reflexivity|]. split; [apply length_map|].
  apply Forall_map, Forall_forall. intros row _. reflexivity.
Qed.

Lemma constant_estimate_shape (i j : nat) :
  shape1 (constant_estimate (slice labelled_data i j)) = 1
  /\ length (items (constant_estimate (slice labelled_data i j)))
     = length (rows (slice labelled_data i j))
  /\ Forall (fun row => length row = 1)
            (items (constant_estimate (slice labelled_data i j))).
Proof.
  split; [reflexivity|]. split; [apply length_map|].
  apply Forall_map, Forall_forall. intros row _. reflexivity.
Qed.

Lemma predict_one_class_per_row_witness :
  exists classes,
    _predict "classification" constant_predict labelled_data 3
    = Ok (map (fun k => VInt (Z.of_nat k)) classes)
    /\ length classes = 4
    /\ Forall (fun k => k < 2) classes.
Proof.
  apply (predict_one_class_per_row constant_predict labelled_data 2
           constant_predict_shape "classification" 3).
  - lia.
  - discriminate.
  - lia.
  - reflexivity.
Defined.

Lemma predict_one_estimate_per_row_witness :
  exists estimates,
    _predict "regression" constant_estimate labelled_data 3
    = Ok (map VFloat estimates)
    /\ length estimates = 4.
Proof.
  apply (predict_one_estimate_per_row constant_estimate labelled_data 1
           constant_estimate_shape 3).
  - lia.
  - discriminate.
  - reflexivity.
Defined.

Lemma init_with_targets_witness :
  exists self,
    __init__ (rt := reference_runtime) labelled_data (Some constant_predict)
             "classification" (Some [VInt 1; VInt 0; VInt 0; VInt 1]) None
    = Ok self
    /\ mode self = "classification"
    /\ targs self = [VInt 1; VInt 0; VInt 0; VInt 1]
    /\ preds self = [VInt 0; VInt 0; VInt 0; VInt 0]
    /\ NoDup (all_labels self)
    /\ (forall l, In l (all_labels self) <-> l = VInt 0 \/ l = VInt 1).
Proof.
  destruct (init_with_targets_succeeds (rt := reference_runtime)
              labelled_data constant_predict
              "classification" [VInt 1; VInt 0; VInt 0; VInt 1] None
              [VInt 0; VInt 0; VInt 0; VInt 0]
              reference_runtime_laws (or_introl eq_refl) eq_refl)
    as (self & Hinit & Hmode & _ & Htargs & Hpreds & _ & Hlabels).
  { left. exists [1; 0; 0; 1]%Z. split; [reflexivity|].
    repeat constructor; unfold int64; lia. }
  destruct (Hlabels eq_refl) as (Hnd & Hin).
  exists self. split; [exact Hinit|]. split; [exact Hmode|].
  split; [exact Htargs|]. split; [exact Hpreds|]. split; [exact Hnd|].
  intros l. rewrite Hin. simpl. split.
  - intros [E|[E|[E|[E|[]]]]]; subst l; tauto.
  - intros [-> | ->]; tauto.
Defined.

Lemma init_ValueError_witness :
  __init__ (rt := reference_runtime) empty_data (Some constant_predict)
           "regression" (Some []) None
  = Raise ValueError
  /\ __init__ (rt := reference_runtime) labelled_data (Some constant_predict)
              "classification" (Some [VInt 0; VInt 1; VInt 0; VInt 1])
              (Some 0%Z)
     = Raise ValueError.
Proof.
  split.
  - apply init_ValueError; [right; reflexivity|left; reflexivity].
  - apply init_ValueError; [left; reflexivity|right; simpl; lia].
Defined.

Lemma dpl_swapped_groups_witness :
  exists dpl_ab dpl_ba,
    _dpl [0; 1]%Z [1; 1]%Z [0; 1]%Z [1; 1]%Z [0; 1]%Z = Ok dpl_ab
    /\ _dpl [1; 1]%Z [0; 1]%Z [1; 1]%Z [0; 1]%Z [0; 1]%Z = Ok dpl_ba
    /\ forall l, In l [0; 1]%Z ->
         exists x y,
           dict_get l dpl_ab = Some x /\ dict_get l dpl_ba = Some y
           /\ (y = - x \/ (x = 0 /\ y = 0))%float.
Proof.
  apply (dpl_swapped_groups [0; 1]%Z [1; 1]%Z [0; 1]%Z [1; 1]%Z [0; 1]%Z).
  - discriminate.
  - discriminate.
  - simpl. lia.
  - simpl. lia.
Defined.

Lemma dpl_equal_counts_witness :
  exists dpl,
    _dpl [0; 1]%Z [1; 0]%Z [0; 1; 1]%Z [1; 0; 1]%Z [0; 1]%Z = Ok dpl
    /\ dict_get 1%Z dpl = Some 0%float.
Proof.
  apply (dpl_equal_counts [0; 1]%Z [1; 0]%Z [0; 1; 1]%Z [1; 0; 1]%Z
           [0; 1]%Z 1%Z).
  - discriminate.
  - simpl. lia.
  - reflexivity.
  - reflexivity.
  - simpl. tauto.
Defined.

Lemma di_zero_without_b_predictions_witness :
  exists di,
    _di [0; 1]%Z [1; 0]%Z [0; 1; 1]%Z [0; 0]%Z [0; 1]%Z = Ok di
    /\ dict_get 1%Z di = Some 0%float.
Proof.
  apply (di_zero_without_b_predictions [0; 1]%Z [1; 0]%Z [0; 1; 1]%Z
           [0; 0]%Z [0; 1]%Z 1%Z).
  - discriminate.
  - discriminate.
  - simpl. lia.
  - simpl. lia.
  - simpl. intros p [E|[E|[]]]; subst p; reflexivity.
  - simpl. tauto.
Defined.

(** ** [explain] on two lists, end to end *)

Section ExplainTwoLists.
Context {F T P L : Type} `{PyKey F} `{PyStr F} `{PyEq P L} `{PyKey L}.

Lemma rows_of_list_in_range (values feats : list F) (i : nat) :
  In i (flat_map (fun v => positions v values) feats) -> i < length values.
Proof.
  intros Hi. apply rows_of_list_In in Hi. destruct Hi as (v & _ & Hn).
  apply nth_error_Some. congruence.
Qed.

Lemma rows_of_list_nonempty (values feats : list F) :
  feats <> [] -> Forall (fun x => In x values) feats ->
  flat_map (fun v => positions v values) feats <> [].
Proof.
  destruct feats as [|v feats]; [congruence|]. intros _ Hknown He.
  inversion Hknown as [|? ? Hv _]; subst.
  destruct (In_nth_error _ _ Hv) as [i Hi].
  assert (Hin : In i (flat_map (fun v => positions v values) (v :: feats))).
  { apply rows_of_list_In. exists v. split; [left; reflexivity|exact Hi]. }
  rewrite He in Hin. destruct Hin.
Qed.

(** X20: on an analyzer with a target and a prediction for every row, a
    call with two non-empty lists of values of the column succeeds: it
    prints one mapping, "DPL" then "DI", returns [None], and the scores of
    every label are [qa - qb] and [qb / (qa + 1e-8)], where [qa] and [qb]
    are the specification's proportions of the label among the predictions
    of the rows that hold a value of the first list and of the rows that
    hold a value of the second list (the rows of a value listed twice
    counted twice). *)
Theorem explain_two_lists_succeeds (self : BiasAnalyzer F T P L)
  (feature_column : string) (values first second : list F)
  (labels : labels_arg L) (pred_a pred_b : list P) :
  dict_get feature_column (data self) = Some values ->
  first <> [] -> second <> [] ->
  Forall (fun x => In x values) first ->
  Forall (fun x => In x values) second ->
  length values <= length (targs self) ->
  length values <= length (preds self) ->
  pred_a = flat_map (fun v => predictions_where (is_value v) values
                                                (preds self)) first ->
  pred_b = flat_map (fun v => predictions_where (is_value v) values
                                                (preds self)) second ->
  (Z.of_nat (length pred_a) < 2 ^ 63)%Z ->
  (Z.of_nat (length pred_b) < 2 ^ 63)%Z ->
  exists dpl di,
    explain self feature_column (ValueLists [first; second]) labels
    = Ok {| stdout := [[("DPL", dpl); ("DI", di)]]; returned := None |}
    /\ (forall l, In l (resolved_labels self labels) ->
          dict_get l dpl
          = Some (spec_proportion pred_a l - spec_proportion pred_b l)%float
          /\ dict_get l di
             = Some (spec_proportion pred_b l
                     / (spec_proportion pred_a l + eps))%float).
Proof.
  intros Hcol Hfirst Hsecond Hk1 Hk2 Hlt Hlp Ea Eb Hla Hlb.
  set (ga := flat_map (fun v => positions v values) first).
  set (gb := flat_map (fun v => positions v values) second).
  assert (Hknown : all_known values (ValueLists [first; second])).
  { simpl. repeat split; assumption. }
  assert (Hrange : Forall (fun i => i < length (targs self)
                                    /\ i < length (preds self)) (ga ++ gb)).
  { apply Forall_forall. intros i Hi. apply in_app_or in Hi.
    assert (i < length values)
      by (destruct Hi as [Hi|Hi]; eapply rows_of_list_in_range; exact Hi).
    lia. }
  destruct (get_labels_in_range self ga gb labels Hrange)
    as (ta & tb & pa & pb & Hlabels & _ & _ & Hpa & Hpb).
  assert (Epa : pa = pred_a).
  { rewrite Ea. apply (selects_functional (preds self) ga); [exact Hpa|].
    apply selects_rows_of_list. exact Hlp. }
  assert (Epb : pb = pred_b).
  { rewrite Eb. apply (selects_functional (preds self) gb); [exact Hpb|].
    apply selects_rows_of_list. exact Hlp. }
  assert (Hpa_ne : pa <> []).
  { intros ->. apply selects_length in Hpa.
    apply (rows_of_list_nonempty values first Hfirst Hk1).
    fold ga. destruct ga; [reflexivity|discriminate]. }
  assert (Hpb_ne : pb <> []).
  { intros ->. apply selects_length in Hpb.
    apply (rows_of_list_nonempty values second Hsecond Hk2).
    fold gb. destruct gb; [reflexivity|discriminate]. }
  eexists _, _. split.
  - rewrite (explain_checked self feature_column values
               (ValueLists [first; second]) labels Hcol Hknown).
    rewrite (groups_of_lists values [first; second]). simpl nth.
    fold ga gb. rewrite Hlabels. simpl.
    rewrite (dpl_total ta tb pa pb _ Hpa_ne Hpb_ne).
    rewrite (di_total ta tb pa pb _ Hpa_ne Hpb_ne). reflexivity.
  - intros l Hl. rewrite !fold_dict_set_get.
    destruct (in_dec key_eq_dec l (resolved_labels self labels));
      [|contradiction].
    rewrite Epa, Epb, !proportion_spec by assumption.
    split; reflexivity.
Qed.

End ExplainTwoLists.

Lemma explain_two_lists_witness :
  exists dpl di,
    explain skewed_scenario "feat" (ValueLists [["Y"; "X"]; ["X"]]) NoLabels
    = Ok {| stdout := [[("DPL", dpl); ("DI", di)]]; returned := None |}
    /\ dict_get 0%Z dpl = Some 0.25%float
    /\ dict_get 1%Z dpl = Some (-0.25)%float
    /\ dict_get 0%Z di = Some 0%float
    /\ dict_get 1%Z di = Some 0x1.55555508fa75dp+0%float.
Proof.
  destruct (explain_two_lists_succeeds skewed_scenario "feat"
              ["X"; "X"; "Y"; "Y"] ["Y"; "X"] ["X"] NoLabels
              [0; 1; 1; 1]%Z [1; 1]%Z eq_refl
              ltac:(discriminate) ltac:(discriminate)
              ltac:(repeat constructor; simpl; tauto)
              ltac:(repeat constructor; simpl; tauto)
              ltac:(simpl; lia) ltac:(simpl; lia) eq_refl eq_refl
              ltac:(simpl; lia) ltac:(simpl; lia))
    as (dpl & di & Hrun & Hscores).
  destruct (Hscores 0%Z ltac:(simpl; tauto)) as [D0 I0].
  destruct (Hscores 1%Z ltac:(simpl; tauto)) as [D1 I1].
  exists dpl, di. split; [exact Hrun|].
  rewrite D0, D1, I0, I1. repeat split; reflexivity.
Defined.

(** ** The claims on example inputs *)


Lemma di_is_qb_over_qa_plus_eps_witness :
  exists metrics,
    _di [0; 1]%Z [0; 1]%Z [0; 1]%Z [1; 1]%Z [0; 1]%Z = Ok metrics
    /\ dict_get 0%Z metrics = Some 0%float
    /\ dict_get 1%Z metrics = Some 0x1.ffffff5433892p+0%float
    /\ dict_get 2%Z metrics = None.
Proof.
  destruct (di_is_qb_over_qa_plus_eps [0; 1]%Z [0; 1]%Z [0; 1]%Z [1; 1]%Z
              [0; 1]%Z ltac:(discriminate) ltac:(discriminate)
              ltac:(simpl; lia) ltac:(simpl; lia))
    as (metrics & Hrun & Hin & Hout).
  exists metrics. split; [exact Hrun|].
  rewrite (Hin 0%Z ltac:(simpl; tauto)), (Hin 1%Z ltac:(simpl; tauto)).
  split; [reflexivity|]. split; [reflexivity|].
  apply Hout. simpl. intros [E|[E|[]]]; discriminate.
Defined.

Lemma empty_group_raises_witness :
  _dpl [0; 1]%Z ([] : list Z) [0; 1]%Z ([] : list Z) [0; 1]%Z
  = Raise ZeroDivisionError
  /\ explain scenario "feat" (ValueLists [["X"]; []]) NoLabels
     = Raise ZeroDivisionError.
Proof.
  destruct (empty_group_raises_ZeroDivisionError
              (F := string) (T := Z) (P := Z) (L := Z)) as [Hdpl Hexplain].
  split.
  - apply Hdpl; [right; reflexivity|discriminate].
  - apply (Hexplain scenario "feat" ["X"; "X"; "Y"; "Y"]
             (ValueLists [["X"]; []]) NoLabels [0; 1] []).
    + reflexivity.
    + simpl. repeat split; repeat constructor.
    + reflexivity.
    + right. reflexivity.
    + repeat constructor; simpl; lia.
    + discriminate.
Defined.
